(** * Tic-tac-toe: the minimax core of [main.go]

    A shallow embedding of the board model, the evaluator, the minimax
    search and the move selector of [main.go], and the properties of the
    design specification stated and proved over it; then the console
    functions and the game loop, with the properties the code shows.

    Conventions of the embedding.
    - Go's [int] is modelled by [Z]; the only arithmetic of the core is
      [depth+1], written with its 64-bit wrap-around.
    - A cell is a Go [string], modelled by [String.string]; the type
      [board] is the array [[3][3]string], a record of three rows of three
      cells.  Arrays are values in Go: a call receives a copy.
    - An index expression [b[r][c]] whose indices come from data can
      leave the range [0..2]; the run-time panic is the result [Panic].
    - The recursion of [minimax] is on a fuel counter; running out of it is
      the result [OutOfFuel], and the theorems show it never happens with
      the fuel the entry points pass.
    - [fmt.Println] appends a line to an output trace; [rand.Intn] is an
      oracle passed to [findBestMove].
    - Standard input is what each [bufio.Reader] delivers: a list of
      outcomes of [ReadString] for every call of [getPlayerMove], which
      creates its own reader.  [strings.TrimSpace] and [strconv.Atoi] are
      parameters of the functions that call them. *)

From Stdlib Require Import ZArith List String Bool Lia.
From Stdlib Require DecimalString.
Import ListNotations.

Local Open Scope Z_scope.
Local Open Scope string_scope.

(** ** Results of partial computations *)

Inductive result (A : Type) : Type :=
| Ok (a : A)
| Panic
| OutOfFuel.

Arguments Ok {A} a.
Arguments Panic {A}.
Arguments OutOfFuel {A}.

Definition bind {A B : Type} (m : result A) (k : A -> result B) : result B :=
  match m with
  | Ok a => k a
  | Panic => Panic
  | OutOfFuel => OutOfFuel
  end.

Notation "x <- m ;; k" := (bind m (fun x => k))
  (at level 61, m at next level, right associativity).
Notation "' p <- m ;; k" := (bind m (fun x => match x with p => k end))
  (at level 61, p pattern, m at next level, right associativity).

(** Go's [&&] and [||] evaluate their right operand only when needed. *)
Notation "a &&& b" := (if a then b else false)
  (at level 40, left associativity).
Notation "a ||| b" := (if a then true else b)
  (at level 50, left associativity).

(** An index expression that may fail: [None] is the panic. *)
Definition checked {A : Type} (o : option A) : result A :=
  match o with
  | Some a => Ok a
  | None => Panic
  end.

(** [for _, x := range l { s = body(x, s) }] with a body that may fail. *)
Fixpoint for_each {A S : Type} (l : list A) (body : A -> S -> result S)
    (s : S) : result S :=
  match l with
  | [] => Ok s
  | x :: l' => s' <- body x s ;; for_each l' body s'
  end.

(** ** Constants *)

Definition playerX : string := "X".
Definition playerO : string := "O".
Definition emptyCell : string := " ".

Definition MinInt32 : Z := -2147483648.
Definition MaxInt32 : Z := 2147483647.

Definition MinInt64 : Z := -9223372036854775808.
Definition MaxInt64 : Z := 9223372036854775807.

(** Go's [int] on a 64-bit target: the value of [x] after wrap-around
    (see [wrap_int_mod]); a value in range is left as it is. *)
Definition wrap_int (x : Z) : Z :=
  if (MinInt64 <=? x)%Z then
    if (x <=? MaxInt64)%Z then x else (x + 2 ^ 63) mod 2 ^ 64 - 2 ^ 63
  else (x + 2 ^ 63) mod 2 ^ 64 - 2 ^ 63.

(** [len(l)] as an [int]. *)
Definition len {A : Type} (l : list A) : Z := Z.of_nat (List.length l).

(** ** Board model *)

(** [[3]string] *)
Record row : Type := Row { col0 : string; col1 : string; col2 : string }.

(** [type board [3][3]string] *)
Record board : Type := Board { row0 : row; row1 : row; row2 : row }.

(** A move is a [[2]int]: row and column. *)
Definition move : Type := (Z * Z)%type.

Definition row_get (rw : row) (j : Z) : option string :=
  match j with
  | 0 => Some (col0 rw)
  | 1 => Some (col1 rw)
  | 2 => Some (col2 rw)
  | _ => None
  end.

Definition row_set (rw : row) (j : Z) (v : string) : option row :=
  match j with
  | 0 => Some (Row v (col1 rw) (col2 rw))
  | 1 => Some (Row (col0 rw) v (col2 rw))
  | 2 => Some (Row (col0 rw) (col1 rw) v)
  | _ => None
  end.

(** [b[i][j]] *)
Definition get (b : board) (i j : Z) : option string :=
  match i with
  | 0 => row_get (row0 b) j
  | 1 => row_get (row1 b) j
  | 2 => row_get (row2 b) j
  | _ => None
  end.

(** [b[i][j] = v] *)
Definition set (b : board) (i j : Z) (v : string) : option board :=
  match i with
  | 0 => option_map (fun rw => Board rw (row1 b) (row2 b)) (row_set (row0 b) j v)
  | 1 => option_map (fun rw => Board (row0 b) rw (row2 b)) (row_set (row1 b) j v)
  | 2 => option_map (fun rw => Board (row0 b) (row1 b) rw) (row_set (row2 b) j v)
  | _ => None
  end.

(** [b[i][j]] under [for i := 0; i < 3; i++] and [for j := 0; j < 3; j++],
    and at constant indices: the index is in range by the loop bounds (see
    [get_cell]); the last branch is outside every such loop. *)
Definition cell (b : board) (i j : Z) : string :=
  match get b i j with
  | Some s => s
  | None => ""
  end.

(** The values of [i] in [for i := 0; i < 3; i++]. *)
Definition idx3 : list Z := [0; 1; 2].

(** [initializeBoard] *)
Definition initializeBoard : board :=
  let b := Board (Row "" "" "") (Row "" "" "") (Row "" "" "") in
  fold_left
    (fun b i =>
       fold_left
         (fun b j => match set b i j emptyCell with Some b' => b' | None => b end)
         idx3 b)
    idx3 b.

(** [getAvailableMoves]: the empty cells, appended in scan order. *)
Definition getAvailableMoves (b : board) : list move :=
  fold_left
    (fun moves i =>
       fold_left
         (fun moves j =>
            if cell b i j =? emptyCell then (moves ++ [(i, j)])%list else moves)
         idx3 moves)
    idx3 [].

(** [checkWin]: each loop returns [true] at the first complete line. *)
Definition checkWin (b : board) (player : string) : bool :=
  if existsb
       (fun i => (cell b i 0 =? player) &&& (cell b i 1 =? player)
                 &&& (cell b i 2 =? player)) idx3
  then true
  else if existsb
            (fun j => (cell b 0 j =? player) &&& (cell b 1 j =? player)
                      &&& (cell b 2 j =? player)) idx3
  then true
  else if (cell b 0 0 =? player) &&& (cell b 1 1 =? player)
          &&& (cell b 2 2 =? player)
  then true
  else if (cell b 0 2 =? player) &&& (cell b 1 1 =? player)
          &&& (cell b 2 0 =? player)
  then true
  else false.

(** [isBoardFull] *)
Definition isBoardFull (b : board) : bool :=
  (len (getAvailableMoves b) =? 0)%Z.

(** ** Evaluator *)

(** [evaluateBoard] *)
Definition evaluateBoard (b : board) : Z :=
  if checkWin b playerO then 10
  else if checkWin b playerX then -10
  else 0.

(** ** Minimax search *)

(** The body of the loop of the maximizing branch; the state is the local
    board and [bestScore].  [search] is the recursive call; it receives a
    copy of the board, so the caller goes on with its own [b]. *)
Definition max_body (search : board -> result (board * Z)) (mv : move)
    (st : board * Z) : result (board * Z) :=
  let '(b, bestScore) := st in
  let '(r, c) := mv in
  b <- checked (set b r c playerO) ;;
  '(_, currentScore) <- search b ;;
  b <- checked (set b r c emptyCell) ;;
  Ok (b, if (currentScore >? bestScore)%Z then currentScore else bestScore).

(** The body of the loop of the minimizing branch. *)
Definition min_body (search : board -> result (board * Z)) (mv : move)
    (st : board * Z) : result (board * Z) :=
  let '(b, bestScore) := st in
  let '(r, c) := mv in
  b <- checked (set b r c playerX) ;;
  '(_, currentScore) <- search b ;;
  b <- checked (set b r c emptyCell) ;;
  Ok (b, if (currentScore <? bestScore)%Z then currentScore else bestScore).

(** [minimax], on a fuel counter.  The result is the pair of the local
    variable [b] as it is when the function returns, and the returned
    score. *)
Fixpoint minimax_fuel (fuel : nat) (b : board) (depth : Z)
    (isMaximizing : bool) : result (board * Z) :=
  match fuel with
  | O => OutOfFuel
  | S fuel' =>
      let score := evaluateBoard b in
      if (score =? 10)%Z ||| (score =? -10)%Z ||| isBoardFull b then
        Ok (b, score)
      else
        let availableMoves := getAvailableMoves b in
        if isMaximizing then
          for_each availableMoves
            (max_body (fun b' => minimax_fuel fuel' b' (wrap_int (depth + 1)) false))
            (b, MinInt32)
        else
          for_each availableMoves
            (min_body (fun b' => minimax_fuel fuel' b' (wrap_int (depth + 1)) true))
            (b, MaxInt32)
  end.

(** A board has nine cells, so a search is at most ten calls deep. *)
Definition search_fuel : nat := 10.

(** [minimax(b, depth, isMaximizing)]: the returned score. *)
Definition minimax (b : board) (depth : Z) (isMaximizing : bool) : result Z :=
  '(_, score) <- minimax_fuel search_fuel b depth isMaximizing ;; Ok score.

(** The local board of a call to [minimax] when it returns. *)
Definition minimax_board (b : board) (depth : Z) (isMaximizing : bool)
  : result board :=
  '(b', _) <- minimax_fuel search_fuel b depth isMaximizing ;; Ok b'.

(** ** Move selector *)

(** The line [findBestMove] prints when its loop selected nothing. *)
Definition no_best_move_line : string :=
  "Error: No best move found, picking random available move.".

(** [l[k]] for a slice [l]. *)
Definition index {A : Type} (l : list A) (k : Z) : option A :=
  if (k <? 0)%Z then None else nth_error l (Z.to_nat k).

(** [rand.Intn(n)]: a panic when [n <= 0], else the draw of the oracle.
    [rand.Intn] draws from [0..n-1]; an oracle drawing outside makes the
    index expression that follows fail. *)
Definition randIntn (intn : Z -> Z) (n : Z) : result Z :=
  if (n <=? 0)%Z then Panic else Ok (intn n).

(** The body of the selection loop; the state is the local board,
    [bestScore] and [bestMove]. *)
Definition find_body (mv : move) (st : board * Z * move)
  : result (board * Z * move) :=
  let '(b, bestScore, bestMove) := st in
  let '(r, c) := mv in
  b <- checked (set b r c playerO) ;;
  moveScore <- minimax b 0 false ;;
  b <- checked (set b r c emptyCell) ;;
  Ok (if (moveScore >? bestScore)%Z then (b, moveScore, mv)
      else (b, bestScore, bestMove)).

(** The selection loop of [findBestMove], from its initial state. *)
Definition find_loop (b : board) : result (board * Z * move) :=
  for_each (getAvailableMoves b) find_body (b, MinInt32, (-1, -1)).

(** [findBestMove]: the returned pair and the lines printed. *)
Definition findBestMove (intn : Z -> Z) (b : board)
  : result (move * list string) :=
  let availableMoves := getAvailableMoves b in
  if (len availableMoves =? 9)%Z then
    k <- randIntn intn (len availableMoves) ;;
    mv <- checked (index availableMoves k) ;;
    Ok (mv, [])
  else
    '(_, _, bestMove) <- find_loop b ;;
    if (fst bestMove =? -1)%Z then
      let out := [no_best_move_line] in
      if (len availableMoves >? 0)%Z then
        k <- randIntn intn (len availableMoves) ;;
        mv <- checked (index availableMoves k) ;;
        Ok (mv, out)
      else Ok ((-1, -1), out)
    else Ok (bestMove, []).

(** ** Console *)

(** The line feed, and the text [fmt.Println(s)] writes. *)
Definition nl : string := String (Ascii.ascii_of_nat 10) "".

Definition println (s : string) : string := s ++ nl.

(** [%d] of [fmt.Printf]. *)
Definition itoa (z : Z) : string :=
  DecimalString.NilZero.string_of_int (Z.to_int z).

(** A run of console code: it returned [a], or it is still reading when
    the modelled input ends, or it panicked, or the step counter of the
    model ran out; each with the writes to standard output so far, one
    element per call of [fmt.Print], [fmt.Println] or [fmt.Printf]. *)
Inductive io (A : Type) : Type :=
| Ret (a : A) (out : list string)
| Blocked (out : list string)
| Fault (out : list string)
| Unfinished (out : list string).

Arguments Ret {A} a out.
Arguments Blocked {A} out.
Arguments Fault {A} out.
Arguments Unfinished {A} out.

(** The writes [pre], then the run [r]. *)
Definition emit {A : Type} (pre : list string) (r : io A) : io A :=
  match r with
  | Ret a out => Ret a (pre ++ out)
  | Blocked out => Blocked (pre ++ out)
  | Fault out => Fault (pre ++ out)
  | Unfinished out => Unfinished (pre ++ out)
  end%list.

Definition io_bind {A B : Type} (r : io A) (k : A -> io B) : io B :=
  match r with
  | Ret a out => emit out (k a)
  | Blocked out => Blocked out
  | Fault out => Fault out
  | Unfinished out => Unfinished out
  end.

(** The text of [fmt.Printf("| %s | %s | %s |\n", b[i][0], b[i][1], b[i][2])]. *)
Definition row_text (b : board) (i : Z) : string :=
  "| " ++ cell b i 0 ++ " | " ++ cell b i 1 ++ " | " ++ cell b i 2 ++ " |"
  ++ nl.

Definition rule : string := "-------------".

(** [printBoard] *)
Definition printBoard (b : board) : list string :=
  (println (nl ++ rule)
   :: flat_map (fun i => [row_text b i; println rule]) idx3
   ++ [println ""])%list.

(** One call of [reader.ReadString]: a line, or an error with its text. *)
Inductive read : Type :=
| Line (s : string)
| ReadError (e : string).

Definition prompt : string := "Enter your move (number 1-9): ".

Definition invalid_input_line : string :=
  "Invalid input. Please enter a number between 1 and 9.".

Definition cell_taken_line : string :=
  "Cell already taken. Choose an empty cell.".

(** [getPlayerMove]; [reads] is what its reader delivers, call by call.
    After the test on [moveNum] the subtraction cannot wrap around. *)
Fixpoint getPlayerMove (TrimSpace : string -> string)
    (Atoi : string -> option Z) (b : board) (reads : list read)
  : io (Z * Z) :=
  match reads with
  | [] => Blocked [prompt]
  | r :: reads' =>
      emit [prompt]
        match r with
        | ReadError e =>
            emit [println ("Error reading input: " ++ e)]
              (getPlayerMove TrimSpace Atoi b reads')
        | Line inputStr =>
            let inputStr := TrimSpace inputStr in
            match Atoi inputStr with
            | None =>
                emit [println invalid_input_line]
                  (getPlayerMove TrimSpace Atoi b reads')
            | Some moveNum =>
                if (moveNum <? 1)%Z ||| (moveNum >? 9)%Z then
                  emit [println invalid_input_line]
                    (getPlayerMove TrimSpace Atoi b reads')
                else
                  let row := Z.quot (wrap_int (moveNum - 1)) 3 in
                  let col := Z.rem (wrap_int (moveNum - 1)) 3 in
                  match get b row col with
                  | None => Fault []
                  | Some c =>
                      if negb (c =? emptyCell) then
                        emit [println cell_taken_line]
                          (getPlayerMove TrimSpace Atoi b reads')
                      else Ret (row, col) []
                  end
            end
        end
  end.

(** ** Game loop *)

(** How the loop of [main] is left. *)
Inductive outcome : Type :=
| HumanWins
| ComputerWins
| Drawn
| NoMove.

(** The end of an iteration of the loop: a [break], or the next player. *)
Inductive step : Type :=
| Stop (o : outcome) (b : board)
| Next (b : board) (player : string).

(** The end of an iteration, after the move of [currentPlayer]. *)
Definition after_move (gameBoard : board) (currentPlayer : string) : io step :=
  if checkWin gameBoard currentPlayer then
    emit (printBoard gameBoard)
      (if currentPlayer =? playerX then
         Ret (Stop HumanWins gameBoard)
           [println "Congratulations! You (X) win!"]
       else Ret (Stop ComputerWins gameBoard) [println "Computer (O) wins!"])
  else if isBoardFull gameBoard then
    emit (printBoard gameBoard) (Ret (Stop Drawn gameBoard) [println "It's a draw!"])
  else
    Ret (Next gameBoard (if currentPlayer =? playerX then playerO else playerX))
      [].

(** One iteration of the loop of [main]; [reads] is the input of this
    iteration when the human moves. *)
Definition turn (TrimSpace : string -> string) (Atoi : string -> option Z)
    (intn : Z -> Z) (gameBoard : board) (currentPlayer : string)
    (reads : list read) : io step :=
  emit (printBoard gameBoard)
    (if currentPlayer =? playerX then
       io_bind (getPlayerMove TrimSpace Atoi gameBoard reads)
         (fun mv =>
            match set gameBoard (fst mv) (snd mv) playerX with
            | None => Fault []
            | Some gameBoard => after_move gameBoard currentPlayer
            end)
     else
       emit [println "Computer's turn (O)..."]
         match findBestMove intn gameBoard with
         | Panic => Fault []
         | OutOfFuel => Unfinished []
         | Ok (mv, lines) =>
             emit (map println lines)
               (if (fst mv =? -1)%Z then
                  Ret (Stop NoMove gameBoard)
                    [println
                       "Computer couldn't determine a move. Game ends unexpectedly."]
                else
                  match set gameBoard (fst mv) (snd mv) playerO with
                  | None => Fault []
                  | Some gameBoard =>
                      emit
                        [println
                           ("Computer chose cell "
                            ++ itoa (wrap_int
                                       (wrap_int (fst mv * 3 + snd mv) + 1)))]
                        (after_move gameBoard currentPlayer)
                  end)
         end).

(** The loop of [main], on a counter of iterations; the human's input
    is consumed at the human's turns, one list of reads for each. *)
Fixpoint main_loop (TrimSpace : string -> string) (Atoi : string -> option Z)
    (intn : Z -> Z) (steps : nat) (gameBoard : board) (currentPlayer : string)
    (inputs : list (list read)) : io (outcome * board) :=
  match steps with
  | O => Unfinished []
  | S steps' =>
      io_bind
        (turn TrimSpace Atoi intn gameBoard currentPlayer (hd [] inputs))
        (fun s =>
           match s with
           | Stop o b => Ret (o, b) []
           | Next b player =>
               main_loop TrimSpace Atoi intn steps' b player
                 (if currentPlayer =? playerX then tl inputs else inputs)
           end)
  end.

Definition welcome : list string :=
  map println
    ["Welcome to Go Tic Tac Toe!";
     "You are Player X, Computer is Player O.";
     "Enter a number (1-9) corresponding to the cell:";
     "-------------";
     "| 1 | 2 | 3 |";
     "-------------";
     "| 4 | 5 | 6 |";
     "-------------";
     "| 7 | 8 | 9 |";
     "-------------"].

(** Every iteration marks a cell, so the loop runs at most nine times. *)
Definition max_turns : nat := 9.

(** [main]: the way the loop was left and the final board. *)
Definition main (TrimSpace : string -> string) (Atoi : string -> option Z)
    (intn : Z -> Z) (inputs : list (list read)) : io (outcome * board) :=
  emit welcome
    (io_bind
       (main_loop TrimSpace Atoi intn max_turns initializeBoard playerX inputs)
       (fun r => Ret r [println "Game Over."])).

(** ** Notions of the specification *)

(** The nine cells in row-major order. *)
Definition all_cells : list move :=
  [(0, 0); (0, 1); (0, 2); (1, 0); (1, 1); (1, 2); (2, 0); (2, 1); (2, 2)].

Definition is_empty (b : board) (mv : move) : bool :=
  cell b (fst mv) (snd mv) =? emptyCell.

(** A cell holds one of the three values the program writes. *)
Definition valid_cell (s : string) : bool :=
  (s =? playerX) || (s =? playerO) || (s =? emptyCell).

Definition valid_board (b : board) : bool :=
  forallb (fun mv => valid_cell (cell b (fst mv) (snd mv))) all_cells.

(** At least one cell is occupied. *)
Definition nonempty_board (b : board) : bool :=
  existsb (fun mv => negb (is_empty b mv)) all_cells.

(** A terminal position: a win for either mark, or no empty cell. *)
Definition terminal (b : board) : bool :=
  (evaluateBoard b =? 10)%Z || (evaluateBoard b =? -10)%Z || isBoardFull b.

(** The value of a candidate move of [player]: place the mark on a copy of
    the board and search with the given flag. *)
Definition child_value (b : board) (player : string) (depth : Z)
    (isMaximizing : bool) (mv : move) : result Z :=
  b' <- checked (set b (fst mv) (snd mv) player) ;;
  minimax b' depth isMaximizing.

(** [v] is the greatest, resp. the least, element of [vs]. *)
Definition is_maximum (v : Z) (vs : list Z) : Prop :=
  In v vs /\ Forall (fun x => (x <= v)%Z) vs.

Definition is_minimum (v : Z) (vs : list Z) : Prop :=
  In v vs /\ Forall (fun x => (v <= x)%Z) vs.

(** [human_can_win b]: some empty cell completes a line for the human. *)
Definition human_can_win (b : board) : bool :=
  existsb
    (fun mv =>
       match set b (fst mv) (snd mv) playerX with
       | Some b' => checkWin b' playerX
       | None => false
       end)
    (getAvailableMoves b).

(** [reply_is_safe intn b]: [findBestMove] returns a cell after which the
    human has no move completing a line. *)
Definition reply_is_safe (intn : Z -> Z) (b : board) : Prop :=
  exists mv out b',
    findBestMove intn b = Ok (mv, out) /\
    set b (fst mv) (snd mv) playerO = Some b' /\
    human_can_win b' = false.

(** ** Boards used as examples *)

Definition empty_board : board :=
  Board (Row " " " " " ") (Row " " " " " ") (Row " " " " " ").

(** [X,O,X / O,X,O / _,_,_] *)
Definition scenario_board : board :=
  Board (Row "X" "O" "X") (Row "O" "X" "O") (Row " " " " " ").

(** [O,O,O / X,X,X / _,_,_]: both marks have a complete row. *)
Definition both_win_board : board :=
  Board (Row "O" "O" "O") (Row "X" "X" "X") (Row " " " " " ").

(** [X,O,X / X,O,O / O,X,X]: full, no winner. *)
Definition draw_board : board :=
  Board (Row "X" "O" "X") (Row "X" "O" "O") (Row "O" "X" "X").

(** [X,_,_ / X,_,_ / _,O,_] *)
Definition block_board : board :=
  Board (Row "X" " " " ") (Row "X" " " " ") (Row " " "O" " ").

(** ** Notions used in the proofs *)

(** The three scores. *)
Definition in_range (v : Z) : Prop := v = -10 \/ v = 0 \/ v = 10.

(** The mark, the update of [bestScore] and its initial value, by branch. *)
Definition mark_of (isMaximizing : bool) : string :=
  if isMaximizing then playerO else playerX.

Definition max_upd (s v : Z) : Z := if (v >? s)%Z then v else s.
Definition min_upd (s v : Z) : Z := if (v <? s)%Z then v else s.

Definition upd_of (isMaximizing : bool) : Z -> Z -> Z :=
  if isMaximizing then max_upd else min_upd.

Definition init_of (isMaximizing : bool) : Z :=
  if isMaximizing then MinInt32 else MaxInt32.

Definition body_of (isMaximizing : bool)
  : (board -> result (board * Z)) -> move -> board * Z -> result (board * Z) :=
  if isMaximizing then max_body else min_body.

(** What an iteration needs of the move [mv] with child value [v]. *)
Definition child_ok (m : bool) (search : board -> result (board * Z))
    (b : board) (mv : move) (v : Z) : Prop :=
  exists b1,
    set b (fst mv) (snd mv) (mark_of m) = Some b1 /\
    search b1 = Ok (b1, v) /\
    set b1 (fst mv) (snd mv) emptyCell = Some b.

(** [settled b m v]: with any depth argument and any fuel above the number
    of empty cells, the search of [b] returns [v] and its local board is
    [b] again. *)
Definition settled (b : board) (m : bool) (v : Z) : Prop :=
  forall fuel d,
    (List.length (getAvailableMoves b) < fuel)%nat ->
    minimax_fuel fuel b d m = Ok (b, v).

(** The candidate [mv] of the side [m]: the mark can be placed and
    retracted, and the position after it is settled with value [v]. *)
Definition child_settled (m : bool) (b : board) (mv : move) (v : Z) : Prop :=
  exists b1,
    set b (fst mv) (snd mv) (mark_of m) = Some b1 /\
    set b1 (fst mv) (snd mv) emptyCell = Some b /\
    settled b1 (negb m) v /\ in_range v.

(** The score [findBestMove] gives to a candidate. *)
Definition move_score (b : board) (mv : move) : Z :=
  match child_value b playerO 0 false mv with
  | Ok v => v
  | _ => 0
  end.

(** The update of [bestScore] and [bestMove] by a candidate. *)
Definition select_upd (b : board) (st : Z * move) (mv : move) : Z * move :=
  if (move_score b mv >? fst st)%Z then (move_score b mv, mv) else st.

(** The run returns a value satisfying [P], or it waits for input; it
    neither panics nor runs out of steps. *)
Definition io_sat {A : Type} (P : A -> Prop) (r : io A) : Prop :=
  match r with
  | Ret a _ => P a
  | Blocked _ => True
  | Fault _ => False
  | Unfinished _ => False
  end.

(** The position [b] with the flag [m] is not lost for the computer. *)
Definition safe (b : board) (m : bool) : Prop :=
  forall v, settled b m v -> (0 <= v)%Z.

(** The state of the loop of [main] at the head of an iteration: nobody
    has won, a cell is empty, the position is not lost for the computer,
    and the board is not empty when the computer is to move. *)
Definition in_play (b : board) (player : string) : Prop :=
  terminal b = false /\
  ((player = playerX /\ safe b false) \/
   (player = playerO /\ safe b true /\
    (len (getAvailableMoves b) <= 8)%Z)).

(** The ways the loop of [main] is left, with the final board. *)
Definition good_end (o : outcome) (b : board) : Prop :=
  (o = Drawn /\ isBoardFull b = true /\
   checkWin b playerX = false /\ checkWin b playerO = false) \/
  (o = ComputerWins /\ checkWin b playerO = true /\
   checkWin b playerX = false).

(** The end of an iteration that started in [b]. *)
Definition good_step (b : board) (s : step) : Prop :=
  match s with
  | Stop o fb => good_end o fb
  | Next b' player' =>
      in_play b' player' /\
      (List.length (getAvailableMoves b') < List.length (getAvailableMoves b))%nat
  end.

(** The eight lines of the board. *)
Definition lines : list (move * move * move) :=
  [((0, 0), (0, 1), (0, 2)); ((1, 0), (1, 1), (1, 2)); ((2, 0), (2, 1), (2, 2));
   ((0, 0), (1, 0), (2, 0)); ((0, 1), (1, 1), (2, 1)); ((0, 2), (1, 2), (2, 2));
   ((0, 0), (1, 1), (2, 2)); ((0, 2), (1, 1), (2, 0))]%Z.

(** The number of cells holding [player]. *)
Definition count_mark (b : board) (player : string) : Z :=
  len (filter (fun mv : move => cell b (fst mv) (snd mv) =? player) all_cells).

(** A parser of one decimal digit, for the examples: [strconv.Atoi] on the
    strings of one character. *)
Definition digit_atoi (s : string) : option Z :=
  match s with
  | String c EmptyString =>
      let n := Z.of_nat (Ascii.nat_of_ascii c) in
      if (48 <=? n)%Z && (n <=? 57)%Z then Some (n - 48)%Z else None
  | _ => None
  end.

(** [existsb] and [forallb] that stop at the first decisive element. *)
Fixpoint exists_first {A : Type} (f : A -> bool) (l : list A) : bool :=
  match l with
  | [] => false
  | x :: l' => if f x then true else exists_first f l'
  end.

Fixpoint forall_first {A : Type} (f : A -> bool) (l : list A) : bool :=
  match l with
  | [] => true
  | x :: l' => if f x then forall_first f l' else false
  end.

(** [k] on the board after [player] marks [mv]. *)
Definition after_mark (b : board) (player : string) (k : board -> bool)
    (mv : move) : bool :=
  match set b (fst mv) (snd mv) player with
  | Some b1 => k b1
  | None => false
  end.

(** [at_least n k b m]: a strategy of the computer shows that the value of
    [b] with the flag [m] is at least [k]: one reply at the computer's
    turns, against every move at the human's turns. *)
Fixpoint at_least (n : nat) (k : Z) (b : board) (m : bool) : bool :=
  match n with
  | O => false
  | S n' =>
      if terminal b then (k <=? evaluateBoard b)%Z
      else if m then
        exists_first (after_mark b playerO (fun b1 => at_least n' k b1 false))
          (getAvailableMoves b)
      else
        forall_first (after_mark b playerX (fun b1 => at_least n' k b1 true))
          (getAvailableMoves b)
  end.

(** [at_most n k b m]: a strategy of the human shows that the value of [b]
    with the flag [m] is at most [k]. *)
Fixpoint at_most (n : nat) (k : Z) (b : board) (m : bool) : bool :=
  match n with
  | O => false
  | S n' =>
      if terminal b then (evaluateBoard b <=? k)%Z
      else if m then
        forall_first (after_mark b playerO (fun b1 => at_most n' k b1 false))
          (getAvailableMoves b)
      else
        exists_first (after_mark b playerX (fun b1 => at_most n' k b1 true))
          (getAvailableMoves b)
  end.

(** What a returned move tells about the input and the board. *)
Definition accepted (TrimSpace : string -> string) (Atoi : string -> option Z)
    (b : board) (reads : list read) (mv : move) : Prop :=
  In mv (getAvailableMoves b) /\
  exists s, In (Line s) reads /\
            Atoi (TrimSpace s) = Some (fst mv * 3 + snd mv + 1)%Z.

(** [player] holds the three cells of the line. *)
Definition line_full (b : board) (player : string)
    (l : move * move * move) : bool :=
  let '(m1, m2, m3) := l in
  (cell b (fst m1) (snd m1) =? player)
  && (cell b (fst m2) (snd m2) =? player)
  && (cell b (fst m3) (snd m3) =? player).

(** [X,X,O / _,O,_ / _,X,_]: the computer can complete the diagonal. *)
Definition delayed_win_board : board :=
  Board (Row "X" "X" "O") (Row " " "O" " ") (Row " " "X" " ").

(** Case analysis on an index for which [get] or [set] succeeded. *)
Ltac case_index i :=
  destruct i as [|[i|[i|i|]|]|i]; cbn in *; try discriminate.

Ltac break_board b :=
  destruct b as [[? ? ?] [? ? ?] [? ? ?]].

(** * Properties *)

(** ** Arithmetic *)

Lemma wrap_int_mod (x : Z) :
  wrap_int x = ((x + 2 ^ 63) mod 2 ^ 64 - 2 ^ 63)%Z.
Proof.
  unfold wrap_int, MinInt64, MaxInt64.
  destruct (Z.leb_spec (-9223372036854775808) x) as [Hlo|Hlo]; [|reflexivity].
  destruct (Z.leb_spec x 9223372036854775807) as [Hhi|Hhi]; [|reflexivity].
  rewrite Z.mod_small by lia. lia.
Qed.

(** ** Board model *)

Lemma in_all_cells (mv : move) :
  In mv all_cells <->
  (0 <= fst mv <= 2 /\ 0 <= snd mv <= 2)%Z.
Proof.
  destruct mv as [i j]. unfold all_cells. cbn [fst snd]. split.
  - intros H. cbn in H.
    repeat (destruct H as [H|H]; [inversion H; subst; lia|]). contradiction.
  - intros [Hi Hj].
    assert (i = 0 \/ i = 1 \/ i = 2)%Z as Ei by lia.
    assert (j = 0 \/ j = 1 \/ j = 2)%Z as Ej by lia.
    destruct Ei as [-> | [-> | ->]]; destruct Ej as [-> | [-> | ->]]; cbn; tauto.
Qed.

(** Inside the loop bounds the checked read is the read. *)
Lemma get_cell (b : board) (i j : Z) :
  In (i, j) all_cells -> get b i j = Some (cell b i j).
Proof.
  intros H. apply in_all_cells in H. cbn [fst snd] in H.
  unfold cell.
  assert (i = 0 \/ i = 1 \/ i = 2)%Z as Ei by lia.
  assert (j = 0 \/ j = 1 \/ j = 2)%Z as Ej by lia.
  destruct Ei as [-> | [-> | ->]]; destruct Ej as [-> | [-> | ->]]; reflexivity.
Qed.

Lemma set_in_range (b b' : board) (i j : Z) (v : string) :
  set b i j v = Some b' -> In (i, j) all_cells.
Proof.
  intros H. apply in_all_cells. cbn [fst snd].
  unfold set, row_set in H.
  case_index i; case_index j; lia.
Qed.

Lemma set_total (b : board) (i j : Z) (v : string) :
  In (i, j) all_cells -> exists b', set b i j v = Some b'.
Proof.
  intros H. apply in_all_cells in H. cbn [fst snd] in H.
  assert (i = 0 \/ i = 1 \/ i = 2)%Z as Ei by lia.
  assert (j = 0 \/ j = 1 \/ j = 2)%Z as Ej by lia.
  destruct Ei as [-> | [-> | ->]]; destruct Ej as [-> | [-> | ->]];
    eexists; reflexivity.
Qed.

Lemma cell_set_same (b b' : board) (i j : Z) (v : string) :
  set b i j v = Some b' -> cell b' i j = v.
Proof.
  intros H. unfold set, row_set in H.
  case_index i; case_index j; inversion H; reflexivity.
Qed.

Lemma cell_set_other (b b' : board) (i j : Z) (v : string) (mv : move) :
  set b i j v = Some b' -> In mv all_cells -> mv <> (i, j) ->
  cell b' (fst mv) (snd mv) = cell b (fst mv) (snd mv).
Proof.
  intros H Hmv Hne. destruct mv as [i' j']. cbn [fst snd].
  apply in_all_cells in Hmv. cbn [fst snd] in Hmv.
  assert (i' = 0 \/ i' = 1 \/ i' = 2)%Z as Ei by lia.
  assert (j' = 0 \/ j' = 1 \/ j' = 2)%Z as Ej by lia.
  unfold set, row_set in H.
  case_index i; case_index j; inversion H; subst; clear H;
    destruct Ei as [-> | [-> | ->]]; destruct Ej as [-> | [-> | ->]];
    try reflexivity; exfalso; apply Hne; reflexivity.
Qed.

(** Writing back the value a cell had undoes the write. *)
Lemma set_restore (b b' : board) (i j : Z) (v : string) :
  set b i j v = Some b' -> set b' i j (cell b i j) = Some b.
Proof.
  intros H. break_board b. unfold set, row_set in H.
  case_index i; case_index j; inversion H; reflexivity.
Qed.

(** [getAvailableMoves] lists the empty cells in row-major order. *)
Lemma getAvailableMoves_filter (b : board) :
  getAvailableMoves b = filter (is_empty b) all_cells.
Proof.
  break_board b. unfold getAvailableMoves, is_empty, all_cells, idx3, cell.
  cbn.
  repeat match goal with
         | |- context [String.eqb ?s emptyCell] =>
             destruct (String.eqb s emptyCell); cbn
         end; reflexivity.
Qed.

Lemma in_available (b : board) (mv : move) :
  In mv (getAvailableMoves b) <->
  In mv all_cells /\ cell b (fst mv) (snd mv) = emptyCell.
Proof.
  rewrite getAvailableMoves_filter, filter_In. unfold is_empty.
  rewrite String.eqb_eq. tauto.
Qed.

Lemma filter_length_le {A : Type} (p q : A -> bool) (l : list A) :
  (forall y, In y l -> q y = true -> p y = true) ->
  (List.length (filter q l) <= List.length (filter p l))%nat.
Proof.
  induction l as [|y l IH]; intros H; cbn; [lia|].
  assert (IH' := IH (fun z Hz => H z (or_intror Hz))).
  destruct (q y) eqn:Eq.
  - rewrite (H y (or_introl eq_refl) Eq). cbn. lia.
  - destruct (p y); cbn; lia.
Qed.

Lemma filter_length_lt {A : Type} (p q : A -> bool) (l : list A) (x : A) :
  In x l -> p x = true -> q x = false ->
  (forall y, In y l -> q y = true -> p y = true) ->
  (List.length (filter q l) < List.length (filter p l))%nat.
Proof.
  induction l as [|y l IH]; intros Hin Hp Hq H; cbn; [contradiction|].
  assert (Hle := filter_length_le p q l (fun z Hz => H z (or_intror Hz))).
  destruct Hin as [-> | Hin].
  - rewrite Hp, Hq. cbn. lia.
  - assert (IH' := IH Hin Hp Hq (fun z Hz => H z (or_intror Hz))).
    destruct (q y) eqn:Eq.
    + rewrite (H y (or_introl eq_refl) Eq). cbn. lia.
    + destruct (p y); cbn; lia.
Qed.

(** Marking an empty cell leaves one empty cell less. *)
Lemma available_after_mark (b b' : board) (mv : move) (v : string) :
  In mv (getAvailableMoves b) ->
  (v =? emptyCell) = false ->
  set b (fst mv) (snd mv) v = Some b' ->
  (List.length (getAvailableMoves b') < List.length (getAvailableMoves b))%nat.
Proof.
  intros Hin Hv Hset. apply in_available in Hin. destruct Hin as [Hc He].
  rewrite !getAvailableMoves_filter.
  apply filter_length_lt with (x := mv); trivial.
  - unfold is_empty. rewrite He. apply String.eqb_refl.
  - unfold is_empty. rewrite (cell_set_same _ _ _ _ _ Hset). exact Hv.
  - intros y Hy. unfold is_empty.
    destruct mv as [i j]. cbn [fst snd] in *.
    destruct (Z.eq_dec (fst y) i) as [Ei|Ei];
      [destruct (Z.eq_dec (snd y) j) as [Ej|Ej]|].
    + subst. rewrite (cell_set_same _ _ _ _ _ Hset), Hv. discriminate.
    + rewrite (cell_set_other _ _ _ _ _ y Hset Hy); trivial.
      intros ->. apply Ej. reflexivity.
    + rewrite (cell_set_other _ _ _ _ _ y Hset Hy); trivial.
      intros ->. apply Ei. reflexivity.
Qed.

(** Mark and retract: both writes succeed and the board is restored. *)
Lemma mark_retract (b : board) (mv : move) (v : string) :
  In mv (getAvailableMoves b) ->
  exists b', set b (fst mv) (snd mv) v = Some b' /\
             set b' (fst mv) (snd mv) emptyCell = Some b.
Proof.
  intros Hin. apply in_available in Hin. destruct Hin as [Hc He].
  destruct mv as [i j]. cbn [fst snd] in *.
  destruct (set_total b i j v Hc) as [b' Hb']. exists b'. split; trivial.
  rewrite <- He. apply set_restore with (v := v). exact Hb'.
Qed.

Lemma available_le_9 (b : board) :
  (List.length (getAvailableMoves b) <= 9)%nat.
Proof.
  rewrite getAvailableMoves_filter.
  apply (Nat.le_trans _ _ _ (filter_length_le (fun _ => true) _ _ (fun _ _ _ => eq_refl))).
  cbn. lia.
Qed.

Example initializeBoard_empty : initializeBoard = empty_board.
Proof. reflexivity. Qed.

Example draw_board_full :
  isBoardFull draw_board = true /\
  checkWin draw_board playerX = false /\ checkWin draw_board playerO = false.
Proof. repeat split; reflexivity. Qed.

(** ** Evaluator *)

Example evaluateBoard_both_win :
  checkWin both_win_board playerX = true /\ evaluateBoard both_win_board = 10.
Proof. split; reflexivity. Qed.

Lemma evaluateBoard_range (b : board) :
  evaluateBoard b = -10 \/ evaluateBoard b = 0 \/ evaluateBoard b = 10.
Proof.
  unfold evaluateBoard.
  destruct (checkWin b playerO); [tauto|].
  destruct (checkWin b playerX); tauto.
Qed.

(** ** Minimax search: the loop *)

Lemma minimax_fuel_unfold (fuel : nat) (b : board) (d : Z) (m : bool) :
  minimax_fuel (S fuel) b d m =
  if terminal b then Ok (b, evaluateBoard b)
  else for_each (getAvailableMoves b)
         (body_of m (fun b' => minimax_fuel fuel b' (wrap_int (d + 1)) (negb m)))
         (b, init_of m).
Proof.
  destruct m; reflexivity.
Qed.

(** One iteration: mark, search on the copy, retract, update. *)
Lemma body_of_ok (m : bool) (search : board -> result (board * Z))
    (b b1 b1' : board) (mv : move) (s v : Z) :
  set b (fst mv) (snd mv) (mark_of m) = Some b1 ->
  search b1 = Ok (b1', v) ->
  set b1 (fst mv) (snd mv) emptyCell = Some b ->
  body_of m search mv (b, s) = Ok (b, upd_of m s v).
Proof.
  intros H1 H2 H3. destruct mv as [r c]. cbn [fst snd] in *.
  destruct m; cbn [body_of mark_of upd_of] in *;
    unfold max_body, min_body; rewrite H1; cbn; rewrite H2; cbn;
    rewrite H3; reflexivity.
Qed.

(** The loop leaves the local board as it found it and folds the child
    values into [bestScore]. *)
Lemma loop_of_children (m : bool) (search : board -> result (board * Z))
    (b : board) (l : list move) (vs : list Z) :
  Forall2 (child_ok m search b) l vs ->
  forall s,
    for_each l (body_of m search) (b, s) = Ok (b, fold_left (upd_of m) vs s).
Proof.
  induction 1 as [|mv v l vs Hc _ IH]; intros s; cbn.
  - reflexivity.
  - destruct Hc as (b1 & H1 & H2 & H3).
    rewrite (body_of_ok m search b b1 b1 mv s v H1 H2 H3). cbn. apply IH.
Qed.

Lemma Forall2_of_exists {A B : Type} (P : A -> B -> Prop) (l : list A) :
  (forall x, In x l -> exists y, P x y) -> exists ys, Forall2 P l ys.
Proof.
  induction l as [|x l IH]; intros H.
  - exists []. constructor.
  - destruct (H x (or_introl eq_refl)) as [y Hy].
    destruct (IH (fun z Hz => H z (or_intror Hz))) as [ys Hys].
    exists (y :: ys). constructor; assumption.
Qed.

Lemma Forall2_impl {A B : Type} (P Q : A -> B -> Prop) (l : list A)
    (ys : list B) :
  (forall x y, In x l -> P x y -> Q x y) -> Forall2 P l ys -> Forall2 Q l ys.
Proof.
  intros H F. induction F as [|x y l ys Hxy _ IH]; constructor.
  - apply H; [left; reflexivity|exact Hxy].
  - apply IH. intros x' y' Hx'. apply H. right. exact Hx'.
Qed.

Lemma Forall2_length_eq {A B : Type} (P : A -> B -> Prop) (l : list A)
    (ys : list B) :
  Forall2 P l ys -> List.length l = List.length ys.
Proof.
  induction 1; cbn; congruence.
Qed.

Lemma Forall2_right {A B : Type} (P : A -> B -> Prop) (Q : B -> Prop)
    (l : list A) (ys : list B) :
  (forall x y, P x y -> Q y) -> Forall2 P l ys -> Forall Q ys.
Proof.
  intros H F. induction F; constructor; eauto.
Qed.

(** ** Folding the child values *)

Lemma fold_max_upd (vs : list Z) (s : Z) :
  let r := fold_left max_upd vs s in
  (s <= r)%Z /\ Forall (fun x => (x <= r)%Z) vs /\ (r = s \/ In r vs).
Proof.
  revert s. induction vs as [|v vs IH]; intros s; cbn.
  - repeat split; [lia|constructor|left; reflexivity].
  - destruct (IH (max_upd s v)) as (H1 & H2 & H3).
    assert (s <= max_upd s v /\ v <= max_upd s v
            /\ (max_upd s v = s \/ max_upd s v = v))%Z as (Hs & Hv & Hc).
    { unfold max_upd. destruct (Z.gtb_spec v s); lia. }
    repeat split.
    + lia.
    + constructor; [lia|exact H2].
    + destruct H3 as [H3|H3]; [|right; right; exact H3].
      rewrite H3. destruct Hc as [Hc|Hc]; [left; exact Hc|right; left; lia].
Qed.

Lemma fold_min_upd (vs : list Z) (s : Z) :
  let r := fold_left min_upd vs s in
  (r <= s)%Z /\ Forall (fun x => (r <= x)%Z) vs /\ (r = s \/ In r vs).
Proof.
  revert s. induction vs as [|v vs IH]; intros s; cbn.
  - repeat split; [lia|constructor|left; reflexivity].
  - destruct (IH (min_upd s v)) as (H1 & H2 & H3).
    assert (min_upd s v <= s /\ min_upd s v <= v
            /\ (min_upd s v = s \/ min_upd s v = v))%Z as (Hs & Hv & Hc).
    { unfold min_upd. destruct (Z.ltb_spec v s); lia. }
    repeat split.
    + lia.
    + constructor; [lia|exact H2].
    + destruct H3 as [H3|H3]; [|right; right; exact H3].
      rewrite H3. destruct Hc as [Hc|Hc]; [left; exact Hc|right; left; lia].
Qed.

(** From [MinInt32] the fold of a non-empty list of scores is its
    maximum; from [MaxInt32] its minimum. *)
Lemma fold_max_is_maximum (vs : list Z) :
  vs <> [] -> Forall in_range vs ->
  is_maximum (fold_left max_upd vs MinInt32) vs.
Proof.
  intros Hne Hr. destruct (fold_max_upd vs MinInt32) as (H1 & H2 & H3).
  split; [|exact H2].
  destruct H3 as [H3|H3]; [|exact H3].
  destruct vs as [|v vs]; [contradiction|]. exfalso.
  inversion Hr as [|? ? Hv _]; subst.
  inversion H2 as [|? ? Hle _]; subst.
  rewrite H3 in Hle. unfold MinInt32, in_range in *. lia.
Qed.

Lemma fold_min_is_minimum (vs : list Z) :
  vs <> [] -> Forall in_range vs ->
  is_minimum (fold_left min_upd vs MaxInt32) vs.
Proof.
  intros Hne Hr. destruct (fold_min_upd vs MaxInt32) as (H1 & H2 & H3).
  split; [|exact H2].
  destruct H3 as [H3|H3]; [|exact H3].
  destruct vs as [|v vs]; [contradiction|]. exfalso.
  inversion Hr as [|? ? Hv _]; subst.
  inversion H2 as [|? ? Hle _]; subst.
  rewrite H3 in Hle. unfold MaxInt32, in_range in *. lia.
Qed.

Lemma fold_upd_in_range (m : bool) (vs : list Z) :
  vs <> [] -> Forall in_range vs ->
  in_range (fold_left (upd_of m) vs (init_of m)).
Proof.
  intros Hne Hr. destruct m; cbn [upd_of init_of].
  - destruct (fold_max_is_maximum vs Hne Hr) as [Hin _].
    rewrite Forall_forall in Hr. apply Hr. exact Hin.
  - destruct (fold_min_is_minimum vs Hne Hr) as [Hin _].
    rewrite Forall_forall in Hr. apply Hr. exact Hin.
Qed.

(** ** Minimax search: totality, frame and range *)

Lemma mark_of_not_empty (m : bool) : (mark_of m =? emptyCell) = false.
Proof. destruct m; reflexivity. Qed.

Lemma terminal_settled (b : board) (m : bool) :
  terminal b = true -> settled b m (evaluateBoard b).
Proof.
  intros Ht fuel d Hf. destruct fuel as [|fuel]; [lia|].
  rewrite minimax_fuel_unfold, Ht. reflexivity.
Qed.

Lemma nonterminal_available (b : board) :
  terminal b = false -> getAvailableMoves b <> [].
Proof.
  unfold terminal, isBoardFull, len. intros Ht He. rewrite He in Ht.
  cbn in Ht. rewrite orb_true_r in Ht. discriminate.
Qed.

Section Step.

Variable n : nat.
Hypothesis below :
  forall b m, (List.length (getAvailableMoves b) <= n)%nat ->
              exists v, settled b m v /\ in_range v.

Lemma children_settled (b : board) (m : bool) :
  (List.length (getAvailableMoves b) <= S n)%nat ->
  exists vs, Forall2 (child_settled m b) (getAvailableMoves b) vs.
Proof.
  intros Hn. apply Forall2_of_exists. intros mv Hmv.
  destruct (mark_retract b mv (mark_of m) Hmv) as (b1 & H1 & H2).
  assert (Hlt := available_after_mark b b1 mv (mark_of m) Hmv
                   (mark_of_not_empty m) H1).
  destruct (below b1 (negb m)) as (v & Hs & Hr); [lia|].
  exists v, b1. auto.
Qed.

End Step.

(** A non-terminal position whose candidates are settled is settled, with
    the fold of the child values. *)
Lemma settled_of_children (b : board) (m : bool) (vs : list Z) :
  terminal b = false ->
  Forall2 (child_settled m b) (getAvailableMoves b) vs ->
  settled b m (fold_left (upd_of m) vs (init_of m)).
Proof.
  intros Ht Hc fuel d Hf. destruct fuel as [|fuel]; [lia|].
  rewrite minimax_fuel_unfold, Ht.
  apply loop_of_children.
  apply Forall2_impl with (P := child_settled m b); [|exact Hc].
  intros mv v Hmv (b1 & H1 & H2 & Hs & _). exists b1.
  repeat split; trivial.
  apply Hs.
  assert (Hlt := available_after_mark b b1 mv (mark_of m) Hmv
                   (mark_of_not_empty m) H1).
  lia.
Qed.

Lemma children_in_range (m : bool) (b : board) (l : list move) (vs : list Z) :
  Forall2 (child_settled m b) l vs -> Forall in_range vs.
Proof.
  apply Forall2_right. intros mv v (b1 & _ & _ & _ & Hr). exact Hr.
Qed.

Lemma children_nonempty (m : bool) (b : board) (vs : list Z) :
  terminal b = false ->
  Forall2 (child_settled m b) (getAvailableMoves b) vs -> vs <> [].
Proof.
  intros Ht Hc He. apply (nonterminal_available b Ht).
  apply Forall2_length_eq in Hc. rewrite He in Hc.
  destruct (getAvailableMoves b); [reflexivity|discriminate].
Qed.

(** Every position is settled, with a value in [{-10, 0, 10}]: induction
    on the number of empty cells. *)
Lemma settled_below (n : nat) (b : board) (m : bool) :
  (List.length (getAvailableMoves b) <= n)%nat ->
  exists v, settled b m v /\ in_range v.
Proof.
  revert b m. induction n as [|n IH]; intros b m Hn;
    destruct (terminal b) eqn:Ht;
    try (exists (evaluateBoard b); split;
         [apply terminal_settled; exact Ht|apply evaluateBoard_range]).
  - exfalso. apply (nonterminal_available b Ht).
    destruct (getAvailableMoves b); [reflexivity|cbn in Hn; lia].
  - destruct (children_settled n IH b m Hn) as [vs Hvs].
    exists (fold_left (upd_of m) vs (init_of m)). split.
    + apply settled_of_children; assumption.
    + apply fold_upd_in_range.
      * apply (children_nonempty m b vs Ht Hvs).
      * apply (children_in_range m b _ vs Hvs).
Qed.

Lemma minimax_settled (b : board) (m : bool) :
  exists v, settled b m v /\ in_range v.
Proof.
  apply (settled_below (List.length (getAvailableMoves b))). lia.
Qed.

Lemma settled_children (b : board) (m : bool) :
  exists vs, Forall2 (child_settled m b) (getAvailableMoves b) vs.
Proof.
  apply (children_settled (List.length (getAvailableMoves b))); [|lia].
  intros b' m' _. apply minimax_settled.
Qed.

Lemma settled_fun (b : board) (m : bool) (v w : Z) :
  settled b m v -> settled b m w -> v = w.
Proof.
  intros Hv Hw.
  assert (H1 := Hv (S (List.length (getAvailableMoves b))) 0%Z (Nat.lt_succ_diag_r _)).
  assert (H2 := Hw (S (List.length (getAvailableMoves b))) 0%Z (Nat.lt_succ_diag_r _)).
  congruence.
Qed.

(** The fuel of the entry point is enough for every board. *)
Lemma settled_minimax (b : board) (m : bool) (v : Z) (d : Z) :
  settled b m v -> minimax b d m = Ok v /\ minimax_board b d m = Ok b.
Proof.
  intros Hs. unfold minimax, minimax_board.
  rewrite (Hs search_fuel d).
  - split; reflexivity.
  - unfold search_fuel. assert (H := available_le_9 b). lia.
Qed.

Lemma child_settled_value (m : bool) (b : board) (d : Z) (mv : move) (v : Z) :
  child_settled m b mv v ->
  child_value b (mark_of m) d (negb m) mv = Ok v.
Proof.
  intros (b1 & H1 & _ & Hs & _). unfold child_value. rewrite H1. cbn.
  apply (settled_minimax b1 (negb m) v d Hs).
Qed.

Lemma terminal_false (b : board) :
  evaluateBoard b <> 10 -> evaluateBoard b <> -10 -> isBoardFull b = false ->
  terminal b = false.
Proof.
  intros H1 H2 H3. unfold terminal. rewrite H3.
  destruct (Z.eqb_spec (evaluateBoard b) 10); [contradiction|].
  destruct (Z.eqb_spec (evaluateBoard b) (-10)); [contradiction|].
  reflexivity.
Qed.

Lemma terminal_true (b : board) :
  evaluateBoard b = 10 \/ evaluateBoard b = -10 \/ isBoardFull b = true ->
  terminal b = true.
Proof.
  unfold terminal. intros [H|[H|H]]; rewrite H; cbn;
    rewrite ?orb_true_r; reflexivity.
Qed.

(** The value of a non-terminal position, by branch. *)
Lemma minimax_nonterminal (b : board) (d d' : Z) (m : bool) :
  terminal b = false ->
  exists vs,
    Forall2 (fun mv x => child_value b (mark_of m) d' (negb m) mv = Ok x)
      (getAvailableMoves b) vs /\
    vs <> [] /\ Forall in_range vs /\
    minimax b d m = Ok (fold_left (upd_of m) vs (init_of m)).
Proof.
  intros Ht. destruct (settled_children b m) as [vs Hvs]. exists vs.
  repeat split.
  - apply Forall2_impl with (P := child_settled m b); [|exact Hvs].
    intros mv x _. apply child_settled_value.
  - apply (children_nonempty m b vs Ht Hvs).
  - apply (children_in_range m b _ vs Hvs).
  - apply settled_minimax. apply settled_of_children; assumption.
Qed.

(** ** Bounds on the value by strategies *)

Lemma exists_first_exists {A : Type} (f : A -> bool) (l : list A) :
  exists_first f l = true -> exists x, In x l /\ f x = true.
Proof.
  induction l as [|x l IH]; cbn; [discriminate|].
  destruct (f x) eqn:E.
  - intros _. exists x. auto.
  - intros H. destruct (IH H) as (y & Hy & Ey). exists y. auto.
Qed.

Lemma forall_first_forall {A : Type} (f : A -> bool) (l : list A) :
  forall_first f l = true -> forall x, In x l -> f x = true.
Proof.
  induction l as [|x l IH]; cbn; [contradiction|].
  destruct (f x) eqn:E; [|discriminate].
  intros H y [<-|Hy]; [exact E|apply IH; assumption].
Qed.

Lemma Forall2_in_left {A B : Type} (P : A -> B -> Prop) (l : list A)
    (ys : list B) (x : A) :
  Forall2 P l ys -> In x l -> exists y, In y ys /\ P x y.
Proof.
  induction 1 as [|a y l ys Hay _ IH]; [contradiction|].
  intros [<-|Hx].
  - exists y. split; [left; reflexivity|exact Hay].
  - destruct (IH Hx) as (y' & Hy' & Hp). exists y'. split; [right|]; assumption.
Qed.

Lemma Forall2_in_right {A B : Type} (P : A -> B -> Prop) (l : list A)
    (ys : list B) (y : B) :
  Forall2 P l ys -> In y ys -> exists x, In x l /\ P x y.
Proof.
  induction 1 as [|a y' l ys Hay _ IH]; [contradiction|].
  intros [<-|Hy].
  - exists a. split; [left; reflexivity|exact Hay].
  - destruct (IH Hy) as (x & Hx & Hp). exists x. split; [right|]; assumption.
Qed.

(** The value of a non-terminal position among the values of its
    candidates: above all of them and one of them, or below all of them and
    one of them. *)
Lemma settled_nonterminal (b : board) (m : bool) (v : Z) :
  terminal b = false -> settled b m v ->
  exists vs,
    Forall2 (child_settled m b) (getAvailableMoves b) vs /\
    if m then is_maximum v vs else is_minimum v vs.
Proof.
  intros Ht Hv. destruct (settled_children b m) as [vs Hvs]. exists vs.
  split; [exact Hvs|].
  assert (Hne := children_nonempty m b vs Ht Hvs).
  assert (Hr := children_in_range m b _ vs Hvs).
  rewrite (settled_fun b m v _ Hv (settled_of_children b m vs Ht Hvs)).
  destruct m; cbn [upd_of init_of].
  - apply fold_max_is_maximum; assumption.
  - apply fold_min_is_minimum; assumption.
Qed.

Lemma after_mark_child (m : bool) (b : board) (k : board -> bool)
    (mv : move) (x : Z) :
  after_mark b (mark_of m) k mv = true -> child_settled m b mv x ->
  exists b1, k b1 = true /\ settled b1 (negb m) x.
Proof.
  unfold after_mark. intros Hk (b1 & H1 & _ & Hs & _). rewrite H1 in Hk.
  exists b1. auto.
Qed.

Lemma at_least_sound (n : nat) (k : Z) :
  forall b m v, at_least n k b m = true -> settled b m v -> (k <= v)%Z.
Proof.
  induction n as [|n IH]; intros b m v H Hv; cbn in H; [discriminate|].
  destruct (terminal b) eqn:Ht.
  - rewrite (settled_fun b m v _ Hv (terminal_settled b m Ht)).
    apply Z.leb_le. exact H.
  - destruct (settled_nonterminal b m v Ht Hv) as (vs & Hvs & Hext).
    destruct m.
    + apply exists_first_exists in H. destruct H as (mv & Hmv & Hk).
      destruct (Forall2_in_left _ _ _ mv Hvs Hmv) as (x & Hx & Hc).
      destruct (after_mark_child true b _ mv x Hk Hc) as (b1 & Hb1 & Hs).
      assert (Hkx := IH b1 false x Hb1 Hs).
      destruct Hext as [_ Hall]. rewrite Forall_forall in Hall.
      specialize (Hall x Hx). lia.
    + destruct Hext as [Hin _].
      destruct (Forall2_in_right _ _ _ v Hvs Hin) as (mv & Hmv & Hc).
      assert (Hk := forall_first_forall _ _ H mv Hmv).
      destruct (after_mark_child false b _ mv v Hk Hc) as (b1 & Hb1 & Hs).
      apply (IH b1 true v Hb1 Hs).
Qed.

Lemma at_most_sound (n : nat) (k : Z) :
  forall b m v, at_most n k b m = true -> settled b m v -> (v <= k)%Z.
Proof.
  induction n as [|n IH]; intros b m v H Hv; cbn in H; [discriminate|].
  destruct (terminal b) eqn:Ht.
  - rewrite (settled_fun b m v _ Hv (terminal_settled b m Ht)).
    apply Z.leb_le. exact H.
  - destruct (settled_nonterminal b m v Ht Hv) as (vs & Hvs & Hext).
    destruct m.
    + destruct Hext as [Hin _].
      destruct (Forall2_in_right _ _ _ v Hvs Hin) as (mv & Hmv & Hc).
      assert (Hk := forall_first_forall _ _ H mv Hmv).
      destruct (after_mark_child true b _ mv v Hk Hc) as (b1 & Hb1 & Hs).
      apply (IH b1 false v Hb1 Hs).
    + apply exists_first_exists in H. destruct H as (mv & Hmv & Hk).
      destruct (Forall2_in_left _ _ _ mv Hvs Hmv) as (x & Hx & Hc).
      destruct (after_mark_child false b _ mv x Hk Hc) as (b1 & Hb1 & Hs).
      assert (Hkx := IH b1 true x Hb1 Hs).
      destruct Hext as [_ Hall]. rewrite Forall_forall in Hall.
      specialize (Hall x Hx). lia.
Qed.

(** A value bounded on both sides by strategies. *)
Lemma minimax_by_strategies (n : nat) (k : Z) (b : board) (d : Z) (m : bool) :
  at_least n k b m = true -> at_most n k b m = true ->
  minimax b d m = Ok k.
Proof.
  intros Hlo Hhi. destruct (minimax_settled b m) as (v & Hv & _).
  assert (H1 := at_least_sound n k b m v Hlo Hv).
  assert (H2 := at_most_sound n k b m v Hhi Hv).
  assert (v = k) by lia. subst.
  apply (settled_minimax b m k d Hv).
Qed.

(** The depth argument does not influence the result. *)
Lemma minimax_depth_irrelevant (b : board) (d d' : Z) (m : bool) :
  minimax b d m = minimax b d' m.
Proof.
  destruct (minimax_settled b m) as (v & Hv & _).
  rewrite (proj1 (settled_minimax b m v d Hv)).
  rewrite (proj1 (settled_minimax b m v d' Hv)). reflexivity.
Qed.

(** ** The claims on the evaluator and the search *)

(** C2. On a non-terminal board ([evaluateBoard] is neither 10 nor -10 and
    the board is not full) every available move has a child value, and
    [minimax] with [isMaximizing = true] returns the maximum of the values
    of [minimax] with [isMaximizing = false] after placing O on each
    available move, while [minimax] with [isMaximizing = false] returns
    the minimum of the values of [minimax] with [isMaximizing = true]
    after placing X on each available move. *)
Theorem minimax_is_max_min_of_children (b : board) (d : Z) :
  evaluateBoard b <> 10 -> evaluateBoard b <> -10 -> isBoardFull b = false ->
  (exists vs v,
      Forall2 (fun mv x =>
                 child_value b playerO (wrap_int (d + 1)) false mv = Ok x)
        (getAvailableMoves b) vs /\
      minimax b d true = Ok v /\ is_maximum v vs) /\
  (exists vs v,
      Forall2 (fun mv x =>
                 child_value b playerX (wrap_int (d + 1)) true mv = Ok x)
        (getAvailableMoves b) vs /\
      minimax b d false = Ok v /\ is_minimum v vs).
Proof.
  intros H1 H2 H3. assert (Ht := terminal_false b H1 H2 H3). split.
  - destruct (minimax_nonterminal b d (wrap_int (d + 1)) true Ht)
      as (vs & Hc & Hne & Hr & Hm).
    exists vs, (fold_left max_upd vs MinInt32).
    repeat split; trivial; apply fold_max_is_maximum; assumption.
  - destruct (minimax_nonterminal b d (wrap_int (d + 1)) false Ht)
      as (vs & Hc & Hne & Hr & Hm).
    exists vs, (fold_left min_upd vs MaxInt32).
    repeat split; trivial; apply fold_min_is_minimum; assumption.
Qed.

Lemma minimax_is_max_min_of_children_witness :
  evaluateBoard block_board <> 10 /\
  evaluateBoard block_board <> -10 /\
  isBoardFull block_board = false /\
  (exists vs v,
      Forall2 (fun mv x =>
                 child_value block_board playerO (wrap_int (0 + 1)) false mv
                 = Ok x)
        (getAvailableMoves block_board) vs /\
      minimax block_board 0 true = Ok v /\ is_maximum v vs).
Proof.
  assert (H1 : evaluateBoard block_board <> 10) by (vm_compute; lia).
  assert (H2 : evaluateBoard block_board <> -10) by (vm_compute; lia).
  assert (H3 : isBoardFull block_board = false) by reflexivity.
  repeat split; trivial.
  exact (proj1 (minimax_is_max_min_of_children block_board 0 H1 H2 H3)).
Defined.

(** C3. On a board where [evaluateBoard] is 10 or -10, or that is full,
    [minimax] returns [evaluateBoard b] whatever the flag and whatever the
    depth argument; more generally the result of [minimax] never depends on
    the depth argument, so a win found deep in the tree scores as an
    immediate one. *)
Theorem minimax_terminal (b : board) :
  evaluateBoard b = 10 \/ evaluateBoard b = -10 \/ isBoardFull b = true ->
  (forall d m, minimax b d m = Ok (evaluateBoard b)) /\
  (forall b' d d' m, minimax b' d m = minimax b' d' m).
Proof.
  intros H. split.
  - intros d m. apply settled_minimax. apply terminal_settled.
    apply terminal_true. exact H.
  - intros b' d d' m. apply minimax_depth_irrelevant.
Qed.

Lemma minimax_terminal_witness :
  (evaluateBoard draw_board = 10 \/ evaluateBoard draw_board = -10 \/
   isBoardFull draw_board = true) /\
  minimax draw_board 7 true = Ok (evaluateBoard draw_board).
Proof.
  assert (H : evaluateBoard draw_board = 10 \/ evaluateBoard draw_board = -10
              \/ isBoardFull draw_board = true)
    by (right; right; reflexivity).
  split; [exact H|].
  exact (proj1 (minimax_terminal draw_board H) 7 true).
Defined.

(** C4. [evaluateBoard] returns one of -10, 0 and 10; it returns 10 exactly
    when [checkWin b playerO] holds; the computer's win is checked first,
    so it returns -10 exactly when [checkWin b playerX] holds and
    [checkWin b playerO] does not, and on a board where both marks have a
    complete line it returns 10. *)
Theorem evaluateBoard_spec (b : board) :
  (evaluateBoard b = -10 \/ evaluateBoard b = 0 \/ evaluateBoard b = 10) /\
  (evaluateBoard b = 10 <-> checkWin b playerO = true) /\
  (evaluateBoard b = -10 <->
   checkWin b playerX = true /\ checkWin b playerO = false) /\
  (checkWin b playerO && checkWin b playerX = true -> evaluateBoard b = 10).
Proof.
  unfold evaluateBoard.
  destruct (checkWin b playerO), (checkWin b playerX); cbn;
    repeat split; intros; try tauto; try lia; try discriminate;
    try (destruct H; discriminate).
Qed.

(** C5. From the empty board, [minimax] with [isMaximizing = true] returns
    0, whatever the depth argument. *)
Theorem minimax_empty_board_draw :
  forall d, minimax empty_board d true = Ok 0.
Proof.
  intros d. apply (minimax_by_strategies search_fuel); vm_compute; reflexivity.
Qed.

(** C6. A call to [minimax] leaves its board as it was: the local board
    when the call returns is the argument, and for each available move the
    mark is placed, the search of the marked board returns with that board
    unchanged, and the retraction gives back the board of before. *)
Theorem minimax_restores_board (b : board) (d : Z) (m : bool) :
  minimax_board b d m = Ok b /\
  forall mv, In mv (getAvailableMoves b) ->
    exists b1,
      set b (fst mv) (snd mv) (mark_of m) = Some b1 /\
      minimax_board b1 (wrap_int (d + 1)) (negb m) = Ok b1 /\
      set b1 (fst mv) (snd mv) emptyCell = Some b.
Proof.
  split.
  - destruct (minimax_settled b m) as (v & Hv & _).
    apply (settled_minimax b m v d Hv).
  - intros mv Hmv.
    destruct (mark_retract b mv (mark_of m) Hmv) as (b1 & H1 & H2).
    exists b1. repeat split; trivial.
    destruct (minimax_settled b1 (negb m)) as (v & Hv & _).
    apply (settled_minimax b1 (negb m) v _ Hv).
Qed.

(** C10. On a board whose cells are each X, O or empty, [minimax] returns a
    value among -10, 0 and 10: the initial values [MinInt32] and
    [MaxInt32] of [bestScore] are never returned. *)
Theorem minimax_range (b : board) (d : Z) (m : bool) :
  valid_board b = true ->
  exists v, minimax b d m = Ok v /\ (v = -10 \/ v = 0 \/ v = 10).
Proof.
  intros _. destruct (minimax_settled b m) as (v & Hv & Hr).
  exists v. split; [apply (settled_minimax b m v d Hv)|exact Hr].
Qed.

Lemma minimax_range_witness :
  valid_board block_board = true /\
  exists v, minimax block_board 0 false = Ok v /\ (v = -10 \/ v = 0 \/ v = 10).
Proof.
  split; [reflexivity|].
  apply (minimax_range block_board 0 false). reflexivity.
Defined.

(** ** Move selector *)

Lemma move_score_ok (b : board) (mv : move) :
  In mv (getAvailableMoves b) ->
  child_value b playerO 0 false mv = Ok (move_score b mv) /\
  in_range (move_score b mv).
Proof.
  intros Hmv.
  destruct (mark_retract b mv playerO Hmv) as (b1 & H1 & _).
  destruct (minimax_settled b1 false) as (v & Hv & Hr).
  assert (E : child_value b playerO 0 false mv = Ok v).
  { unfold child_value. rewrite H1. cbn. apply (settled_minimax b1 false v 0 Hv). }
  unfold move_score. rewrite E. auto.
Qed.

Lemma find_body_ok (b : board) (mv : move) (s : Z) (bm : move) :
  In mv (getAvailableMoves b) ->
  find_body mv (b, s, bm) =
  Ok (b, fst (select_upd b (s, bm) mv), snd (select_upd b (s, bm) mv)).
Proof.
  intros Hmv.
  destruct (mark_retract b mv playerO Hmv) as (b1 & H1 & H2).
  destruct (move_score_ok b mv Hmv) as [E _].
  unfold child_value in E. rewrite H1 in E. cbn in E.
  destruct mv as [r c]. cbn [fst snd] in *.
  unfold find_body. rewrite H1. cbn. rewrite E. cbn. rewrite H2. cbn.
  unfold select_upd. cbn [fst snd].
  destruct (move_score b (r, c) >? s)%Z; reflexivity.
Qed.

(** The selection loop leaves the local board as it found it and folds the
    candidates into [bestScore] and [bestMove]. *)
Lemma find_loop_fold (b : board) (l : list move) :
  incl l (getAvailableMoves b) ->
  forall st,
    for_each l find_body (b, fst st, snd st) =
    Ok (b, fst (fold_left (select_upd b) l st),
        snd (fold_left (select_upd b) l st)).
Proof.
  induction l as [|mv l IH]; intros Hl st.
  - reflexivity.
  - cbn [for_each fold_left].
    rewrite find_body_ok by (apply Hl; left; reflexivity). cbn [bind].
    rewrite <- (IH (fun x Hx => Hl x (or_intror Hx)) (select_upd b st mv)).
    destruct st; reflexivity.
Qed.

(** The fold keeps the first candidate of greatest score, if one beats the
    initial [bestScore]. *)
Lemma select_first_argmax (b : board) (l : list move) :
  forall st,
    let st' := fold_left (select_upd b) l st in
    (st' = st /\ Forall (fun x => (move_score b x <= fst st)%Z) l) \/
    (exists l1 mv l2,
        l = l1 ++ mv :: l2 /\
        st' = (move_score b mv, mv) /\
        (fst st < move_score b mv)%Z /\
        Forall (fun x => (move_score b x < move_score b mv)%Z) l1 /\
        Forall (fun x => (move_score b x <= move_score b mv)%Z) l2)%list.
Proof.
  induction l as [|x l IH]; intros st; cbn [fold_left].
  - left. split; [reflexivity|constructor].
  - assert (Hst : ((fst st < move_score b x)%Z /\
                   select_upd b st x = (move_score b x, x)) \/
                  ((move_score b x <= fst st)%Z /\ select_upd b st x = st)).
    { unfold select_upd.
      destruct (Z.gtb_spec (move_score b x) (fst st)); [left|right];
        split; trivial; lia. }
    destruct (IH (select_upd b st x))
      as [[E Hall]|(l1 & mv & l2 & El & E & Hlt & H1 & H2)];
      destruct Hst as [[Hgt Es]|[Hle Es]]; rewrite Es in *; cbn [fst] in *.
    + right. exists [], x, l.
      split; [reflexivity|]. split; [exact E|].
      split; [lia|]. split; [constructor|exact Hall].
    + left. split; [exact E|]. constructor; [lia|exact Hall].
    + right. exists (x :: l1), mv, l2.
      split; [rewrite El; reflexivity|]. split; [exact E|].
      split; [lia|]. split; [constructor; [lia|exact H1]|exact H2].
    + right. exists (x :: l1), mv, l2.
      split; [rewrite El; reflexivity|]. split; [exact E|].
      split; [lia|]. split; [constructor; [lia|exact H1]|exact H2].
Qed.

(** With at least one candidate the loop selects one: every score is above
    [MinInt32]. *)
Lemma find_loop_selects (b : board) :
  getAvailableMoves b <> [] ->
  exists l1 mv l2,
    (getAvailableMoves b = l1 ++ mv :: l2)%list /\
    find_loop b = Ok (b, move_score b mv, mv) /\
    Forall (fun x => (move_score b x < move_score b mv)%Z) l1 /\
    Forall (fun x => (move_score b x <= move_score b mv)%Z) l2.
Proof.
  intros Hne. unfold find_loop.
  change (for_each (getAvailableMoves b) find_body (b, MinInt32, (-1, -1)))
    with (for_each (getAvailableMoves b) find_body
            (b, fst (MinInt32, (-1, -1)), snd (MinInt32, (-1, -1)))).
  rewrite find_loop_fold by apply incl_refl.
  destruct (select_first_argmax b (getAvailableMoves b) (MinInt32, (-1, -1)))
    as [[_ Hall]|(l1 & mv & l2 & El & E & _ & H1 & H2)].
  - exfalso. destruct (getAvailableMoves b) as [|x l] eqn:Ea; [contradiction|].
    inversion Hall as [|? ? Hx _]; subst.
    assert (Hin : In x (getAvailableMoves b)) by (rewrite Ea; left; reflexivity).
    destruct (move_score_ok b x Hin) as [_ Hr].
    cbn [fst] in Hx. unfold MinInt32, in_range in *. lia.
  - exists l1, mv, l2. rewrite E. cbn [fst snd]. auto.
Qed.

Lemma available_row_in_range (b : board) (mv : move) :
  In mv (getAvailableMoves b) -> (fst mv =? -1)%Z = false.
Proof.
  intros H. apply in_available in H. destruct H as [H _].
  apply in_all_cells in H. apply Z.eqb_neq. lia.
Qed.

(** With 1 to 8 candidates [findBestMove] returns the selection of its
    loop and prints nothing. *)
Lemma findBestMove_selected (intn : Z -> Z) (b : board) :
  (1 <= len (getAvailableMoves b) <= 8)%Z ->
  exists l1 mv l2,
    (getAvailableMoves b = l1 ++ mv :: l2)%list /\
    find_loop b = Ok (b, move_score b mv, mv) /\
    findBestMove intn b = Ok (mv, []) /\
    Forall (fun x => (move_score b x < move_score b mv)%Z) l1 /\
    Forall (fun x => (move_score b x <= move_score b mv)%Z) l2.
Proof.
  intros Hn.
  assert (Hne : getAvailableMoves b <> []).
  { intros E. rewrite E in Hn. cbn in Hn. lia. }
  destruct (find_loop_selects b Hne) as (l1 & mv & l2 & El & Hloop & H1 & H2).
  exists l1, mv, l2. repeat split; trivial.
  assert (Hrow : (fst mv =? -1)%Z = false).
  { apply (available_row_in_range b). rewrite El.
    apply in_or_app. right. left. reflexivity. }
  unfold findBestMove.
  destruct (Z.eqb_spec (len (getAvailableMoves b)) 9) as [E9|_]; [lia|].
  rewrite Hloop. cbn [bind fst]. rewrite Hrow. reflexivity.
Qed.

Lemma findBestMove_no_moves (intn : Z -> Z) (b : board) :
  len (getAvailableMoves b) = 0%Z ->
  findBestMove intn b = Ok ((-1, -1), [no_best_move_line]).
Proof.
  intros H. unfold findBestMove, find_loop. rewrite H.
  destruct (getAvailableMoves b); [reflexivity|discriminate].
Qed.

Lemma nonempty_board_available (b : board) :
  nonempty_board b = true -> (len (getAvailableMoves b) <= 8)%Z.
Proof.
  intros H. unfold nonempty_board in H. apply existsb_exists in H.
  destruct H as (mv & Hin & Hmv).
  rewrite getAvailableMoves_filter. unfold len.
  assert (Hq : is_empty b mv = false)
    by (destruct (is_empty b mv); [discriminate|reflexivity]).
  assert (Hlt := filter_length_lt (fun _ => true) (is_empty b) all_cells mv
                   Hin eq_refl Hq (fun _ _ _ => eq_refl)).
  change (List.length (filter (fun _ : move => true) all_cells))
    with 9%nat in Hlt.
  lia.
Qed.

(** The opening move is the draw of the oracle. *)
Example findBestMove_opener :
  findBestMove (fun _ => 4%Z) empty_board = Ok ((1, 1)%Z, []) /\
  findBestMove (fun _ => 8%Z) empty_board = Ok ((2, 2)%Z, []).
Proof. split; reflexivity. Qed.

(** The human is about to complete column 0: the computer blocks. *)
Example findBestMove_blocks :
  findBestMove (fun _ => 0%Z) block_board = Ok ((2, 0)%Z, []).
Proof. vm_compute. reflexivity. Qed.

(** ** The claims on the move selector *)

(** C1. On a board with at least 1 and at most 8 empty cells,
    [findBestMove] places O on each available move in row-major order,
    evaluates it with [minimax] and [isMaximizing = false], retracts the
    mark (the loop ends with the board it started with), and returns the
    first move attaining the maximum value: the moves before it score
    strictly less, the moves after it score at most as much. *)
Theorem findBestMove_first_maximum (intn : Z -> Z) (b : board) :
  (1 <= len (getAvailableMoves b) <= 8)%Z ->
  exists l1 mv l2 v,
    (getAvailableMoves b = l1 ++ mv :: l2)%list /\
    find_loop b = Ok (b, v, mv) /\
    findBestMove intn b = Ok (mv, []) /\
    child_value b playerO 0 false mv = Ok v /\
    Forall (fun x => exists w,
                child_value b playerO 0 false x = Ok w /\ (w < v)%Z) l1 /\
    Forall (fun x => exists w,
                child_value b playerO 0 false x = Ok w /\ (w <= v)%Z) l2.
Proof.
  intros Hn.
  destruct (findBestMove_selected intn b Hn)
    as (l1 & mv & l2 & El & Hloop & Hfind & H1 & H2).
  assert (Hin : forall x, In x (l1 ++ mv :: l2)%list ->
                          In x (getAvailableMoves b))
    by (intros x Hx; rewrite El; exact Hx).
  exists l1, mv, l2, (move_score b mv). repeat split; trivial.
  - apply move_score_ok. apply Hin. apply in_or_app. right. left. reflexivity.
  - rewrite Forall_forall in *. intros x Hx. exists (move_score b x). split.
    + apply move_score_ok. apply Hin. apply in_or_app. left. exact Hx.
    + apply H1. exact Hx.
  - rewrite Forall_forall in *. intros x Hx. exists (move_score b x). split.
    + apply move_score_ok. apply Hin. apply in_or_app. right. right. exact Hx.
    + apply H2. exact Hx.
Qed.

Lemma findBestMove_first_maximum_witness :
  (1 <= len (getAvailableMoves block_board) <= 8)%Z /\
  exists l1 mv l2 v,
    (getAvailableMoves block_board = l1 ++ mv :: l2)%list /\
    find_loop block_board = Ok (block_board, v, mv) /\
    findBestMove (fun _ => 0%Z) block_board = Ok (mv, []) /\
    child_value block_board playerO 0 false mv = Ok v /\
    Forall (fun x => exists w,
                child_value block_board playerO 0 false x = Ok w /\ (w < v)%Z)
      l1 /\
    Forall (fun x => exists w,
                child_value block_board playerO 0 false x = Ok w /\ (w <= v)%Z)
      l2.
Proof.
  assert (H : (1 <= len (getAvailableMoves block_board) <= 8)%Z)
    by (vm_compute; split; discriminate).
  split; [exact H|].
  exact (findBestMove_first_maximum (fun _ => 0%Z) block_board H).
Defined.

(** C7. On a board with at least one occupied cell, [findBestMove] returns
    the same result at every call: the result does not depend on the random
    source. *)
Theorem findBestMove_deterministic (b : board) :
  nonempty_board b = true ->
  (forall intn1 intn2, findBestMove intn1 b = findBestMove intn2 b) /\
  (exists r, forall intn, findBestMove intn b = Ok r).
Proof.
  intros Hb. assert (H8 := nonempty_board_available b Hb).
  assert (Hr : exists r, forall intn, findBestMove intn b = Ok r).
  { destruct (Z.eq_dec (len (getAvailableMoves b)) 0) as [E0|N0].
    - exists ((-1, -1), [no_best_move_line]). intros intn.
      apply findBestMove_no_moves. exact E0.
    - assert (Hn : (1 <= len (getAvailableMoves b) <= 8)%Z)
        by (unfold len in *; lia).
      destruct (findBestMove_selected (fun _ => 0%Z) b Hn)
        as (l1 & mv & l2 & _ & Hloop & _).
      exists (mv, []). intros intn.
      destruct (findBestMove_selected intn b Hn)
        as (l1' & mv' & l2' & _ & Hloop' & Hfind & _).
      rewrite Hloop in Hloop'. inversion Hloop'; subst. exact Hfind. }
  split; [|exact Hr].
  destruct Hr as [r Hr]. intros intn1 intn2. rewrite !Hr. reflexivity.
Qed.

Lemma findBestMove_deterministic_witness :
  nonempty_board block_board = true /\
  findBestMove (fun _ => 0%Z) block_board
  = findBestMove (fun n => (n - 1)%Z) block_board.
Proof.
  split; [reflexivity|].
  apply (proj1 (findBestMove_deterministic block_board eq_refl)).
Defined.

(** C8. With 1 to 8 available moves the selection loop records a best move
    (its score is above [MinInt32], its row is not -1) and [findBestMove]
    returns it without reaching the fallback, so nothing is printed; with
    no available move [findBestMove] returns the pair (-1, -1), after the
    line of the fallback. *)
Theorem findBestMove_fallback (intn : Z -> Z) (b : board) :
  ((1 <= len (getAvailableMoves b) <= 8)%Z ->
   exists s mv,
     find_loop b = Ok (b, s, mv) /\ (MinInt32 < s)%Z /\
     In mv (getAvailableMoves b) /\ fst mv <> (-1)%Z /\
     findBestMove intn b = Ok (mv, [])) /\
  (len (getAvailableMoves b) = 0%Z ->
   findBestMove intn b = Ok ((-1, -1), [no_best_move_line])).
Proof.
  split.
  - intros Hn.
    destruct (findBestMove_selected intn b Hn)
      as (l1 & mv & l2 & El & Hloop & Hfind & _).
    assert (Hin : In mv (getAvailableMoves b))
      by (rewrite El; apply in_or_app; right; left; reflexivity).
    exists (move_score b mv), mv. repeat split; trivial.
    + destruct (move_score_ok b mv Hin) as [_ Hr].
      unfold MinInt32, in_range in *. lia.
    + apply Z.eqb_neq. apply (available_row_in_range b mv Hin).
  - apply findBestMove_no_moves.
Qed.

Lemma findBestMove_fallback_witness :
  (1 <= len (getAvailableMoves block_board) <= 8)%Z /\
  len (getAvailableMoves draw_board) = 0%Z /\
  (exists s mv,
      find_loop block_board = Ok (block_board, s, mv) /\ (MinInt32 < s)%Z /\
      In mv (getAvailableMoves block_board) /\ fst mv <> (-1)%Z /\
      findBestMove (fun _ => 0%Z) block_board = Ok (mv, [])) /\
  findBestMove (fun _ => 0%Z) draw_board = Ok ((-1, -1), [no_best_move_line]).
Proof.
  assert (H : (1 <= len (getAvailableMoves block_board) <= 8)%Z)
    by (vm_compute; split; discriminate).
  split; [exact H|]. split; [reflexivity|]. split.
  - exact (proj1 (findBestMove_fallback (fun _ => 0%Z) block_board) H).
  - exact (proj2 (findBestMove_fallback (fun _ => 0%Z) draw_board) eq_refl).
Defined.

(** The scenario [X,O,X / O,X,O / _,_,_]: the claim as it is stated fails.
    [findBestMove] returns a cell after which the human completes a line. *)
Lemma scenario_reply_not_safe :
  ~ reply_is_safe (fun _ => 0%Z) scenario_board.
Proof.
  intros (mv & out & b' & Hfind & Hset & Hsafe).
  assert (E : findBestMove (fun _ => 0%Z) scenario_board = Ok ((2, 0)%Z, []))
    by (vm_compute; reflexivity).
  rewrite E in Hfind. inversion Hfind; subst. cbn in Hset.
  inversion Hset; subst. clear - Hsafe. vm_compute in Hsafe.
  discriminate Hsafe.
Qed.

(** C9 (amended). On the board [X,O,X / O,X,O / _,_,_] with the computer to
    move the human threatens both diagonals: every available move has the
    value -10, [findBestMove] returns (2, 0), the first available cell, and
    after O is placed on any available cell, that one included, the human
    still has a move completing a line. *)
Theorem scenario_reply (intn : Z -> Z) :
  getAvailableMoves scenario_board = [(2, 0); (2, 1); (2, 2)]%Z /\
  findBestMove intn scenario_board = Ok ((2, 0)%Z, []) /\
  Forall (fun mv => child_value scenario_board playerO 0 false mv = Ok (-10)%Z)
    (getAvailableMoves scenario_board) /\
  Forall (fun mv =>
            exists b', set scenario_board (fst mv) (snd mv) playerO = Some b'
                       /\ human_can_win b' = true)
    (getAvailableMoves scenario_board).
Proof.
  split; [reflexivity|]. split; [vm_compute; reflexivity|]. split.
  - repeat constructor; vm_compute; reflexivity.
  - repeat constructor; eexists; (split; [reflexivity|vm_compute; reflexivity]).
Qed.

(** * Properties of the rest of the program *)

(** ** Runs *)

Lemma io_sat_emit {A : Type} (P : A -> Prop) (pre : list string) (r : io A) :
  io_sat P (emit pre r) <-> io_sat P r.
Proof. destruct r; cbn; tauto. Qed.

Lemma io_sat_bind {A B : Type} (P : A -> Prop) (Q : B -> Prop) (r : io A)
    (k : A -> io B) :
  io_sat P r -> (forall a, P a -> io_sat Q (k a)) -> io_sat Q (io_bind r k).
Proof.
  destruct r as [a out| | |]; cbn; try tauto.
  intros Ha Hk. apply io_sat_emit. apply Hk. exact Ha.
Qed.

Lemma io_sat_impl {A : Type} (P Q : A -> Prop) (r : io A) :
  (forall a, P a -> Q a) -> io_sat P r -> io_sat Q r.
Proof. destruct r; cbn; auto. Qed.

Lemma io_bind_ext {A B : Type} (P : A -> Prop) (r : io A) (k1 k2 : A -> io B) :
  io_sat P r -> (forall a, P a -> k1 a = k2 a) -> io_bind r k1 = io_bind r k2.
Proof.
  destruct r as [a out| | |]; cbn; try reflexivity.
  intros Ha Hk. rewrite (Hk a Ha). reflexivity.
Qed.

Lemma emit_Ret_inv {A : Type} (pre : list string) (r : io A) (a : A)
    (out : list string) :
  emit pre r = Ret a out -> exists out', r = Ret a out' /\ out = (pre ++ out')%list.
Proof.
  destruct r; cbn; intros H; inversion H; subst. eexists. split; reflexivity.
Qed.

Lemma wrap_int_small (x : Z) :
  (MinInt64 <= x <= MaxInt64)%Z -> wrap_int x = x.
Proof.
  intros [Hlo Hhi]. unfold wrap_int.
  destruct (Z.leb_spec MinInt64 x); [|lia].
  destruct (Z.leb_spec x MaxInt64); [reflexivity|lia].
Qed.

(** ** The human's move *)

(** The cell of a number between 1 and 9, and the number of that cell as
    [main] prints it. *)
Lemma cell_of_number (n : Z) :
  (1 <= n <= 9)%Z ->
  In (Z.quot (wrap_int (n - 1)) 3, Z.rem (wrap_int (n - 1)) 3) all_cells /\
  (Z.quot (wrap_int (n - 1)) 3 * 3 + Z.rem (wrap_int (n - 1)) 3 + 1 = n)%Z.
Proof.
  intros Hn.
  rewrite wrap_int_small by (unfold MinInt64, MaxInt64; lia).
  assert (E : In n [1; 2; 3; 4; 5; 6; 7; 8; 9]%Z) by (cbn; lia).
  cbn in E.
  repeat (destruct E as [E|E]; [subst n; split; [cbn; tauto|reflexivity]|]).
  contradiction.
Qed.

Lemma accepted_later (TrimSpace : string -> string)
    (Atoi : string -> option Z) (b : board) (r : read) (reads : list read)
    (mv : move) :
  accepted TrimSpace Atoi b reads mv -> accepted TrimSpace Atoi b (r :: reads) mv.
Proof.
  intros (H1 & s & Hs & Ha). split; [exact H1|]. exists s. split; [right|]; assumption.
Qed.

Lemma getPlayerMove_sat (TrimSpace : string -> string)
    (Atoi : string -> option Z) (b : board) (reads : list read) :
  io_sat (accepted TrimSpace Atoi b reads)
    (getPlayerMove TrimSpace Atoi b reads).
Proof.
  induction reads as [|r reads IH]; cbn [getPlayerMove]; [exact I|].
  assert (IH' : io_sat (accepted TrimSpace Atoi b (r :: reads))
                  (getPlayerMove TrimSpace Atoi b reads)).
  { revert IH. apply io_sat_impl. intros mv. apply accepted_later. }
  apply io_sat_emit. destruct r as [s|e]; [|apply io_sat_emit; exact IH'].
  cbn zeta. destruct (Atoi (TrimSpace s)) as [n|] eqn:Ea;
    [|apply io_sat_emit; exact IH'].
  destruct (Z.ltb_spec n 1) as [Hlo|Hlo]; [apply io_sat_emit; exact IH'|].
  destruct (Z.gtb_spec n 9) as [Hhi|Hhi]; [apply io_sat_emit; exact IH'|].
  destruct (cell_of_number n (conj Hlo Hhi)) as [Hin Hnum].
  rewrite (get_cell b _ _ Hin).
  destruct (String.eqb_spec
              (cell b (Z.quot (wrap_int (n - 1)) 3) (Z.rem (wrap_int (n - 1)) 3))
              emptyCell) as [He|He]; cbn [negb];
    [|apply io_sat_emit; exact IH'].
  cbn [io_sat]. split.
  - apply in_available. cbn [fst snd]. auto.
  - exists s. split; [left; reflexivity|]. cbn [fst snd]. rewrite Hnum. exact Ea.
Qed.

(** X10. A move [getPlayerMove] returns is an empty cell of the board: its
    row and column are between 0 and 2 and the cell holds [emptyCell]; and
    it is the cell of a number between 1 and 9 that [strconv.Atoi] read on
    one of the trimmed input lines, the number [row*3+col+1] under which
    [main] announces the computer's cells. *)
Theorem getPlayerMove_returns_empty_cell (TrimSpace : string -> string)
    (Atoi : string -> option Z) (b : board) (reads : list read)
    (row col : Z) (out : list string) :
  getPlayerMove TrimSpace Atoi b reads = Ret (row, col) out ->
  (0 <= row <= 2)%Z /\ (0 <= col <= 2)%Z /\
  get b row col = Some emptyCell /\
  exists s, In (Line s) reads /\
            Atoi (TrimSpace s) = Some (row * 3 + col + 1)%Z /\
            (1 <= row * 3 + col + 1 <= 9)%Z.
Proof.
  intros H. assert (Hs := getPlayerMove_sat TrimSpace Atoi b reads).
  rewrite H in Hs. destruct Hs as (Hin & s & Hl & Ha). cbn [fst snd] in *.
  apply in_available in Hin. destruct Hin as [Hc He]. cbn [fst snd] in *.
  assert (Hr := proj1 (in_all_cells (row, col)) Hc). cbn [fst snd] in Hr.
  repeat split; try lia.
  - rewrite (get_cell b row col Hc), He. reflexivity.
  - exists s. repeat split; trivial; lia.
Qed.

Lemma getPlayerMove_returns_empty_cell_witness :
  getPlayerMove (fun s => s) digit_atoi block_board
    [Line "x"; ReadError "EOF"; Line "1"; Line "6"]
  = Ret (1, 2)%Z
      [prompt; println invalid_input_line;
       prompt; println "Error reading input: EOF";
       prompt; println cell_taken_line; prompt] /\
  get block_board 1 2 = Some emptyCell /\
  digit_atoi "6" = Some (1 * 3 + 2 + 1)%Z.
Proof.
  assert (H : getPlayerMove (fun s => s) digit_atoi block_board
                [Line "x"; ReadError "EOF"; Line "1"; Line "6"]
              = Ret (1, 2)%Z
                  [prompt; println invalid_input_line;
                   prompt; println "Error reading input: EOF";
                   prompt; println cell_taken_line; prompt])
    by reflexivity.
  split; [exact H|].
  destruct (getPlayerMove_returns_empty_cell _ _ _ _ _ _ _ H)
    as (_ & _ & Hg & _).
  split; [exact Hg|reflexivity].
Defined.

(** X11. [getPlayerMove] never panics, and on a full board it never returns:
    whatever the input, it is still asking when the input ends. *)
Theorem getPlayerMove_full_board (TrimSpace : string -> string)
    (Atoi : string -> option Z) (b : board) (reads : list read) :
  isBoardFull b = true ->
  exists out, getPlayerMove TrimSpace Atoi b reads = Blocked out.
Proof.
  intros Hf. assert (Hs := getPlayerMove_sat TrimSpace Atoi b reads).
  destruct (getPlayerMove TrimSpace Atoi b reads) as [mv out|out|out|out];
    cbn in Hs; try contradiction.
  - exfalso. destruct Hs as [Hin _].
    unfold isBoardFull, len in Hf.
    destruct (getAvailableMoves b); [contradiction|discriminate].
  - exists out. reflexivity.
Qed.

Lemma getPlayerMove_full_board_witness :
  isBoardFull draw_board = true /\
  exists out,
    getPlayerMove (fun s => s) digit_atoi draw_board [Line "5"; Line "9"]
    = Blocked out.
Proof.
  split; [reflexivity|].
  apply (getPlayerMove_full_board (fun s => s) digit_atoi draw_board). reflexivity.
Defined.

(** ** More on the board model *)

Lemma checkWin_lines (b : board) (player : string) :
  checkWin b player = existsb (line_full b player) lines.
Proof.
  break_board b. unfold checkWin, lines, line_full, idx3, cell. cbn.
  repeat match goal with
         | |- context [String.eqb ?s player] =>
             destruct (String.eqb s player); cbn
         end; reflexivity.
Qed.

Lemma lines_in_range (m1 m2 m3 : move) :
  In (m1, m2, m3) lines ->
  In m1 all_cells /\ In m2 all_cells /\ In m3 all_cells.
Proof.
  unfold lines. cbn. intros H.
  repeat (destruct H as [H|H]; [inversion H; subst; cbn; tauto|]).
  contradiction.
Qed.

(** X3. [checkWin b player] holds exactly when one of the eight lines (three
    rows, three columns, two diagonals) holds [player] in its three
    cells. *)
Theorem checkWin_iff_line (b : board) (player : string) :
  checkWin b player = true <->
  exists m1 m2 m3,
    In (m1, m2, m3) lines /\
    get b (fst m1) (snd m1) = Some player /\
    get b (fst m2) (snd m2) = Some player /\
    get b (fst m3) (snd m3) = Some player.
Proof.
  rewrite checkWin_lines, existsb_exists. split.
  - intros ([[m1 m2] m3] & Hin & Hl). exists m1, m2, m3.
    unfold line_full in Hl. apply andb_prop in Hl. destruct Hl as [Hl H3].
    apply andb_prop in Hl. destruct Hl as [H1 H2].
    apply String.eqb_eq in H1, H2, H3.
    split; [exact Hin|].
    destruct (lines_in_range m1 m2 m3 Hin) as (C1 & C2 & C3).
    destruct m1 as [i1 j1], m2 as [i2 j2], m3 as [i3 j3]. cbn [fst snd] in *.
    rewrite (get_cell b i1 j1 C1), (get_cell b i2 j2 C2), (get_cell b i3 j3 C3).
    rewrite H1, H2, H3. auto.
  - intros (m1 & m2 & m3 & Hin & H1 & H2 & H3). exists (m1, m2, m3).
    split; [exact Hin|]. unfold line_full, cell. rewrite H1, H2, H3.
    rewrite !String.eqb_refl. reflexivity.
Qed.

Lemma checkWin_after_other (b b' : board) (i j : Z) (p q : string) :
  set b i j p = Some b' ->
  (cell b i j =? q) = false ->
  (p =? q) = false ->
  checkWin b' q = checkWin b q.
Proof.
  intros Hset Hcq Hpq. break_board b. unfold set, row_set in Hset.
  case_index i; case_index j; inversion Hset; subst; clear Hset;
    unfold checkWin, idx3, cell in *; cbn in *; rewrite Hpq, Hcq; reflexivity.
Qed.

(** X4. Writing a mark into a cell changes nothing for another mark that
    was not in that cell: [checkWin] of that mark is the same before and
    after.  So a move of one player never gives, nor takes, a line of the
    other. *)
Theorem checkWin_other_mark (b b' : board) (i j : Z) (p q : string) :
  set b i j p = Some b' ->
  get b i j <> Some q ->
  p <> q ->
  checkWin b' q = checkWin b q.
Proof.
  intros Hset Hc Hp.
  assert (Hin := set_in_range b b' i j p Hset).
  rewrite (get_cell b i j Hin) in Hc.
  apply (checkWin_after_other b b' i j p q Hset).
  - apply String.eqb_neq. intros E. apply Hc. rewrite E. reflexivity.
  - apply String.eqb_neq. exact Hp.
Qed.

Lemma checkWin_other_mark_witness :
  set block_board 2 0 playerO
  = Some (Board (Row "X" " " " ") (Row "X" " " " ") (Row "O" "O" " ")) /\
  checkWin (Board (Row "X" " " " ") (Row "X" " " " ") (Row "O" "O" " ")) playerX
  = checkWin block_board playerX.
Proof.
  split; [reflexivity|].
  apply (checkWin_other_mark block_board _ 2 0 playerO playerX);
    [reflexivity|cbn; discriminate|discriminate].
Defined.

(** X1. [getAvailableMoves] returns the empty cells of the board, each
    once, in row-major order: it is the list of the nine cells filtered by
    emptiness, and a move is in it exactly when its indices are in range
    and the cell holds [emptyCell]. *)
Theorem getAvailableMoves_exact (b : board) :
  getAvailableMoves b = filter (is_empty b) all_cells /\
  NoDup (getAvailableMoves b) /\
  forall i j, In (i, j) (getAvailableMoves b) <-> get b i j = Some emptyCell.
Proof.
  split; [apply getAvailableMoves_filter|]. split.
  - rewrite getAvailableMoves_filter. apply NoDup_filter.
    unfold all_cells.
    repeat (constructor; [cbn; intros H; repeat (destruct H as [H|H];
                                                  [discriminate|]); exact H|]).
    constructor.
  - intros i j. rewrite in_available. cbn [fst snd]. split.
    + intros [Hc He]. rewrite (get_cell b i j Hc), He. reflexivity.
    + intros Hg. assert (Hc : In (i, j) all_cells).
      { apply in_all_cells. cbn [fst snd]. unfold get, row_get in Hg.
        case_index i; case_index j; lia. }
      split; [exact Hc|]. rewrite (get_cell b i j Hc) in Hg.
      inversion Hg. reflexivity.
Qed.

Lemma filter_partition3 {A : Type} (p q r : A -> bool) (l : list A) :
  (forall x, In x l ->
             (p x = true /\ q x = false /\ r x = false) \/
             (p x = false /\ q x = true /\ r x = false) \/
             (p x = false /\ q x = false /\ r x = true)) ->
  (List.length (filter p l) + List.length (filter q l)
   + List.length (filter r l) = List.length l)%nat.
Proof.
  induction l as [|x l IH]; intros H; cbn; [reflexivity|].
  assert (IH' := IH (fun y Hy => H y (or_intror Hy))).
  destruct (H x (or_introl eq_refl)) as [(-> & -> & ->)|[(-> & -> & ->)|(-> & -> & ->)]];
    cbn; lia.
Qed.

(** X2. On a board whose cells are each X, O or empty, the number of
    available moves and the numbers of X and of O add up to 9. *)
Theorem cells_add_up (b : board) :
  valid_board b = true ->
  (len (getAvailableMoves b) + count_mark b playerX + count_mark b playerO
   = 9)%Z.
Proof.
  intros Hv. unfold valid_board in Hv. rewrite forallb_forall in Hv.
  rewrite getAvailableMoves_filter. unfold count_mark, len.
  assert (H := filter_partition3 (is_empty b)
                 (fun mv => cell b (fst mv) (snd mv) =? playerX)
                 (fun mv => cell b (fst mv) (snd mv) =? playerO) all_cells).
  change (List.length all_cells) with 9%nat in H.
  enough (Hp : forall x, In x all_cells ->
             (is_empty b x = true /\
              (cell b (fst x) (snd x) =? playerX) = false /\
              (cell b (fst x) (snd x) =? playerO) = false) \/
             (is_empty b x = false /\
              (cell b (fst x) (snd x) =? playerX) = true /\
              (cell b (fst x) (snd x) =? playerO) = false) \/
             (is_empty b x = false /\
              (cell b (fst x) (snd x) =? playerX) = false /\
              (cell b (fst x) (snd x) =? playerO) = true))
    by (specialize (H Hp); lia).
  intros mv Hmv. specialize (Hv mv Hmv). unfold valid_cell in Hv.
  unfold is_empty.
  destruct (String.eqb_spec (cell b (fst mv) (snd mv)) playerX) as [E|_];
    [rewrite E; right; left; repeat split; reflexivity|].
  destruct (String.eqb_spec (cell b (fst mv) (snd mv)) playerO) as [E|_];
    [rewrite E; right; right; repeat split; reflexivity|].
  cbn in Hv. rewrite Hv. left. repeat split; reflexivity.
Qed.

Lemma cells_add_up_witness :
  valid_board block_board = true /\
  (len (getAvailableMoves block_board) + count_mark block_board playerX
   + count_mark block_board playerO = 9)%Z.
Proof.
  split; [reflexivity|]. apply (cells_add_up block_board). reflexivity.
Defined.

(** X5. [isBoardFull] holds exactly when no cell of the board holds
    [emptyCell]. *)
Theorem isBoardFull_iff (b : board) :
  isBoardFull b = true <-> forall i j, get b i j <> Some emptyCell.
Proof.
  unfold isBoardFull, len. split.
  - intros H i j Hg.
    assert (Hin : In (i, j) (getAvailableMoves b)).
    { apply in_available. cbn [fst snd].
      assert (Hc : In (i, j) all_cells).
      { apply in_all_cells. cbn [fst snd]. unfold get, row_get in Hg.
        case_index i; case_index j; lia. }
      split; [exact Hc|]. rewrite (get_cell b i j Hc) in Hg.
      inversion Hg. reflexivity. }
    destruct (getAvailableMoves b); [contradiction|discriminate].
  - intros H. destruct (getAvailableMoves b) as [|[i j] l] eqn:E; [reflexivity|].
    exfalso. apply (H i j).
    assert (Hin : In (i, j) (getAvailableMoves b)) by (rewrite E; left; reflexivity).
    apply in_available in Hin. cbn [fst snd] in Hin. destruct Hin as [Hc He].
    rewrite (get_cell b i j Hc), He. reflexivity.
Qed.

(** ** More on the move selector *)

(** With 1 to 8 candidates the returned move has the greatest score. *)
Lemma selected_is_greatest (intn : Z -> Z) (b : board) :
  (1 <= len (getAvailableMoves b) <= 8)%Z ->
  exists mv,
    findBestMove intn b = Ok (mv, []) /\
    In mv (getAvailableMoves b) /\
    forall x, In x (getAvailableMoves b) ->
              (move_score b x <= move_score b mv)%Z.
Proof.
  intros Hn.
  destruct (findBestMove_selected intn b Hn)
    as (l1 & mv & l2 & El & _ & Hfind & H1 & H2).
  exists mv. split; [exact Hfind|]. rewrite El. split.
  - apply in_or_app. right. left. reflexivity.
  - rewrite Forall_forall in H1, H2. intros x Hx.
    apply in_app_or in Hx. destruct Hx as [Hx|[<-|Hx]].
    + specialize (H1 x Hx). lia.
    + lia.
    + apply H2. exact Hx.
Qed.

Lemma move_score_child (b : board) (mv : move) (v : Z) :
  child_settled true b mv v -> move_score b mv = v.
Proof.
  intros H. unfold move_score.
  assert (E := child_settled_value true b 0 mv v H).
  cbn [mark_of negb] in E. rewrite E. reflexivity.
Qed.

(** The score of the returned move is the value of the position. *)
Lemma selected_value (intn : Z -> Z) (b : board) (v : Z) :
  (1 <= len (getAvailableMoves b) <= 8)%Z ->
  terminal b = false -> settled b true v ->
  exists mv b',
    findBestMove intn b = Ok (mv, []) /\
    In mv (getAvailableMoves b) /\
    set b (fst mv) (snd mv) playerO = Some b' /\
    settled b' false v.
Proof.
  intros Hn Ht Hv.
  destruct (selected_is_greatest intn b Hn) as (mv & Hfind & Hin & Hmax).
  destruct (settled_nonterminal b true v Ht Hv) as (vs & Hvs & Hv_in & Hv_max).
  destruct (Forall2_in_left _ _ _ mv Hvs Hin) as (y & Hy & Hc).
  destruct (Forall2_in_right _ _ _ v Hvs Hv_in) as (x & Hx & Hcx).
  assert (Ey := move_score_child b mv y Hc).
  assert (Ex := move_score_child b x v Hcx).
  assert (Hle := Hmax x Hx).
  rewrite Forall_forall in Hv_max. specialize (Hv_max y Hy).
  assert (Eyv : y = v) by lia.
  destruct Hc as (b' & Hset & _ & Hs & _).
  exists mv, b'. split; [exact Hfind|]. split; [exact Hin|].
  split; [exact Hset|rewrite <- Eyv; exact Hs].
Qed.

Lemma findBestMove_oracle_free (intn1 intn2 : Z -> Z) (b : board) :
  (len (getAvailableMoves b) <= 8)%Z ->
  findBestMove intn1 b = findBestMove intn2 b.
Proof.
  intros H8.
  destruct (Z.eq_dec (len (getAvailableMoves b)) 0) as [E0|N0].
  - rewrite !findBestMove_no_moves by exact E0. reflexivity.
  - assert (Hn : (1 <= len (getAvailableMoves b) <= 8)%Z)
      by (unfold len in *; lia).
    destruct (findBestMove_selected intn1 b Hn)
      as (l1 & mv & l2 & _ & Hloop & Hfind & _).
    destruct (findBestMove_selected intn2 b Hn)
      as (l1' & mv' & l2' & _ & Hloop' & Hfind' & _).
    rewrite Hloop in Hloop'. inversion Hloop'; subst.
    rewrite Hfind, Hfind'. reflexivity.
Qed.

Lemma filter_all {A : Type} (p : A -> bool) (l : list A) :
  List.length (filter p l) = List.length l -> filter p l = l.
Proof.
  induction l as [|x l IH]; cbn; [reflexivity|].
  destruct (p x); cbn; intros H.
  - f_equal. apply IH. lia.
  - exfalso.
    assert (Hle := filter_length_le (fun _ => true) p l (fun _ _ _ => eq_refl)).
    assert (E : filter (fun _ : A => true) l = l).
    { clear. induction l; cbn; congruence. }
    rewrite E in Hle. lia.
Qed.

Lemma nine_available (b : board) :
  len (getAvailableMoves b) = 9%Z -> getAvailableMoves b = all_cells.
Proof.
  intros H9. rewrite getAvailableMoves_filter. apply filter_all.
  rewrite <- getAvailableMoves_filter. unfold len in H9.
  change (List.length all_cells) with 9%nat. lia.
Qed.

Lemma opening_move (intn : Z -> Z) (b : board) :
  len (getAvailableMoves b) = 9%Z ->
  (0 <= intn 9 < 9)%Z ->
  findBestMove intn b = Ok ((intn 9 / 3, intn 9 mod 3)%Z, []) /\
  In (intn 9 / 3, intn 9 mod 3)%Z all_cells.
Proof.
  intros H9 Hk. unfold findBestMove. rewrite H9.
  rewrite (nine_available b H9).
  cbn [Z.eqb Pos.eqb randIntn Z.leb Z.compare bind].
  assert (Ek : In (intn 9) [0; 1; 2; 3; 4; 5; 6; 7; 8]%Z) by (cbn; lia).
  cbn in Ek.
  repeat (destruct Ek as [Ek|Ek];
          [rewrite <- Ek; split; [reflexivity|cbn; tauto]|]).
  contradiction.
Qed.

(** X6. On a board with nine empty cells [findBestMove] runs no search: it
    returns the cell number [k] of the draw [k = rand.Intn(9)], counted
    from 0 in row-major order, that is row [k / 3] and column [k mod 3],
    and prints nothing. *)
Theorem findBestMove_opening (intn : Z -> Z) (b : board) :
  len (getAvailableMoves b) = 9%Z ->
  (0 <= intn 9 < 9)%Z ->
  findBestMove intn b = Ok ((intn 9 / 3, intn 9 mod 3)%Z, []).
Proof.
  intros H9 Hk. apply (opening_move intn b H9 Hk).
Qed.

Lemma findBestMove_opening_witness :
  len (getAvailableMoves empty_board) = 9%Z /\
  (0 <= 7 < 9)%Z /\
  findBestMove (fun _ => 7%Z) empty_board = Ok ((7 / 3, 7 mod 3)%Z, []).
Proof.
  assert (H : (0 <= 7 < 9)%Z) by lia.
  split; [reflexivity|]. split; [exact H|].
  exact (findBestMove_opening (fun _ => 7%Z) empty_board eq_refl H).
Defined.

(** X7. On a board with at least one empty cell, and with draws of
    [rand.Intn(n)] between 0 and n-1, [findBestMove] returns an empty cell
    of the board and prints nothing: the write of [main] that follows
    neither panics nor overwrites a mark. *)
Theorem findBestMove_returns_empty_cell (intn : Z -> Z) (b : board) :
  (1 <= len (getAvailableMoves b))%Z ->
  (forall n, (0 < n)%Z -> (0 <= intn n < n)%Z) ->
  exists row col,
    findBestMove intn b = Ok ((row, col), []) /\
    get b row col = Some emptyCell.
Proof.
  intros H1 Hintn.
  assert (Hin : exists mv, findBestMove intn b = Ok (mv, []) /\
                           In mv (getAvailableMoves b)).
  { destruct (Z.eq_dec (len (getAvailableMoves b)) 9) as [E9|N9].
    - assert (Hk := Hintn 9%Z eq_refl).
      exists (intn 9 / 3, intn 9 mod 3)%Z.
      destruct (opening_move intn b E9 Hk) as [Hfind Hc].
      split; [exact Hfind|]. rewrite (nine_available b E9). exact Hc.
    - assert (Hn : (1 <= len (getAvailableMoves b) <= 8)%Z).
      { assert (H9 := available_le_9 b). unfold len in *. lia. }
      destruct (selected_is_greatest intn b Hn) as (mv & Hfind & Hmv & _).
      exists mv. auto. }
  destruct Hin as ([row col] & Hfind & Hmv). exists row, col.
  split; [exact Hfind|].
  apply in_available in Hmv. cbn [fst snd] in Hmv. destruct Hmv as [Hc He].
  rewrite (get_cell b row col Hc), He. reflexivity.
Qed.

Lemma findBestMove_returns_empty_cell_witness :
  (1 <= len (getAvailableMoves scenario_board))%Z /\
  exists row col,
    findBestMove (fun n => (n - 1)%Z) scenario_board = Ok ((row, col), []) /\
    get scenario_board row col = Some emptyCell.
Proof.
  assert (H : (1 <= len (getAvailableMoves scenario_board))%Z)
    by (vm_compute; discriminate).
  split; [exact H|].
  apply (findBestMove_returns_empty_cell (fun n => (n - 1)%Z) scenario_board H).
  intros n Hn. lia.
Defined.

(** X8. On a non-terminal board with at most 8 empty cells the move
    [findBestMove] returns is optimal: the value [minimax] gives to the
    board after it, with the human to move, is the value [minimax] gives to
    the board itself with the computer to move. *)
Theorem findBestMove_value_is_minimax (intn : Z -> Z) (b : board) (d : Z) :
  evaluateBoard b <> 10 -> evaluateBoard b <> -10 -> isBoardFull b = false ->
  (len (getAvailableMoves b) <= 8)%Z ->
  exists mv v,
    findBestMove intn b = Ok (mv, []) /\
    child_value b playerO 0 false mv = Ok v /\
    minimax b d true = Ok v.
Proof.
  intros H1 H2 H3 H8. assert (Ht := terminal_false b H1 H2 H3).
  assert (Hn : (1 <= len (getAvailableMoves b) <= 8)%Z).
  { split; [|exact H8]. assert (Hne := nonterminal_available b Ht).
    unfold len. destruct (getAvailableMoves b); [contradiction|cbn; lia]. }
  destruct (minimax_settled b true) as (v & Hv & _).
  destruct (selected_value intn b v Hn Ht Hv) as (mv & b' & Hfind & _ & Hset & Hs).
  exists mv, v. split; [exact Hfind|]. split.
  - unfold child_value. rewrite Hset. cbn. apply (settled_minimax b' false v 0 Hs).
  - apply (settled_minimax b true v d Hv).
Qed.

Lemma findBestMove_value_is_minimax_witness :
  evaluateBoard scenario_board <> 10 /\
  evaluateBoard scenario_board <> -10 /\
  isBoardFull scenario_board = false /\
  (len (getAvailableMoves scenario_board) <= 8)%Z /\
  exists mv v,
    findBestMove (fun _ => 0%Z) scenario_board = Ok (mv, []) /\
    child_value scenario_board playerO 0 false mv = Ok v /\
    minimax scenario_board 3 true = Ok v.
Proof.
  assert (H1 : evaluateBoard scenario_board <> 10) by (vm_compute; lia).
  assert (H2 : evaluateBoard scenario_board <> -10) by (vm_compute; lia).
  assert (H3 : isBoardFull scenario_board = false) by reflexivity.
  assert (H4 : (len (getAvailableMoves scenario_board) <= 8)%Z)
    by (vm_compute; discriminate).
  repeat (split; [assumption|]).
  exact (findBestMove_value_is_minimax (fun _ => 0%Z) scenario_board 3
           H1 H2 H3 H4).
Defined.

(** X9. When some available move completes a line for the computer, the
    move [findBestMove] returns has the value 10: the computer never gives
    up a won position.  (The returned move need not complete a line
    itself: the depth is not counted, see [findBestMove_delays_win].) *)
Theorem findBestMove_keeps_win (intn : Z -> Z) (b b' : board) (w : move) :
  (len (getAvailableMoves b) <= 8)%Z ->
  In w (getAvailableMoves b) ->
  set b (fst w) (snd w) playerO = Some b' ->
  checkWin b' playerO = true ->
  exists mv,
    findBestMove intn b = Ok (mv, []) /\
    child_value b playerO 0 false mv = Ok 10%Z.
Proof.
  intros H8 Hw Hset Hwin.
  assert (Hn : (1 <= len (getAvailableMoves b) <= 8)%Z).
  { split; [|exact H8]. unfold len.
    destruct (getAvailableMoves b); [contradiction|cbn; lia]. }
  destruct (selected_is_greatest intn b Hn) as (mv & Hfind & Hmv & Hmax).
  exists mv. split; [exact Hfind|].
  destruct (move_score_ok b mv Hmv) as [Hc Hr].
  assert (Ew : move_score b w = 10%Z).
  { unfold move_score, child_value. rewrite Hset. cbn.
    assert (He : evaluateBoard b' = 10%Z)
      by (unfold evaluateBoard; rewrite Hwin; reflexivity).
    assert (Ht : terminal b' = true)
      by (apply terminal_true; left; exact He).
    rewrite (proj1 (settled_minimax b' false _ 0 (terminal_settled b' false Ht))).
    exact He. }
  specialize (Hmax w Hw). rewrite Ew in Hmax.
  assert (move_score b mv = 10%Z) by (unfold in_range in Hr; lia).
  congruence.
Qed.

Lemma findBestMove_keeps_win_witness :
  (len (getAvailableMoves delayed_win_board) <= 8)%Z /\
  In (2, 0)%Z (getAvailableMoves delayed_win_board) /\
  checkWin (Board (Row "X" "X" "O") (Row " " "O" " ") (Row "O" "X" " ")) playerO
  = true /\
  exists mv,
    findBestMove (fun _ => 0%Z) delayed_win_board = Ok (mv, []) /\
    child_value delayed_win_board playerO 0 false mv = Ok 10%Z.
Proof.
  assert (H8 : (len (getAvailableMoves delayed_win_board) <= 8)%Z)
    by (vm_compute; discriminate).
  assert (Hw : In (2, 0)%Z (getAvailableMoves delayed_win_board))
    by (cbn; tauto).
  assert (Hwin : checkWin (Board (Row "X" "X" "O") (Row " " "O" " ")
                             (Row "O" "X" " ")) playerO = true)
    by reflexivity.
  repeat (split; [assumption|]).
  exact (findBestMove_keeps_win (fun _ => 0%Z) delayed_win_board _ (2, 0)%Z
           H8 Hw eq_refl Hwin).
Defined.

(** On that board (2, 0) wins at once, yet the move returned is (1, 0),
    the first of value 10, which does not complete a line. *)
Example findBestMove_delays_win :
  findBestMove (fun _ => 0%Z) delayed_win_board = Ok ((1, 0)%Z, []) /\
  checkWin (Board (Row "X" "X" "O") (Row "O" "O" " ") (Row " " "X" " ")) playerO
  = false.
Proof. split; [vm_compute; reflexivity|reflexivity]. Qed.

(** ** The game loop *)

Lemma terminal_false_inv (b : board) :
  terminal b = false ->
  checkWin b playerO = false /\ checkWin b playerX = false /\
  isBoardFull b = false.
Proof.
  unfold terminal, evaluateBoard. intros H.
  destruct (checkWin b playerO); [discriminate|].
  destruct (checkWin b playerX); [discriminate|].
  destruct (isBoardFull b); [discriminate|]. auto.
Qed.

Lemma no_win_not_full (b : board) :
  checkWin b playerO = false -> checkWin b playerX = false ->
  isBoardFull b = false -> terminal b = false.
Proof.
  intros H1 H2 H3. unfold terminal, evaluateBoard. rewrite H1, H2, H3.
  reflexivity.
Qed.

(** A board the human has won, and the computer has not, is lost. *)
Lemma safe_no_human_line (b : board) (m : bool) :
  safe b m -> checkWin b playerO = false -> checkWin b playerX = false.
Proof.
  intros Hs Ho. destruct (checkWin b playerX) eqn:Hx; [|reflexivity]. exfalso.
  assert (He : evaluateBoard b = (-10)%Z)
    by (unfold evaluateBoard; rewrite Ho, Hx; reflexivity).
  assert (Ht : terminal b = true) by (apply terminal_true; auto).
  assert (H := Hs _ (terminal_settled b m Ht)). lia.
Qed.

(** After any move of the human the position is still not lost. *)
Lemma safe_after_human (b b' : board) (mv : move) :
  terminal b = false -> safe b false ->
  In mv (getAvailableMoves b) ->
  set b (fst mv) (snd mv) playerX = Some b' ->
  safe b' true.
Proof.
  intros Ht Hs Hmv Hset w Hw.
  destruct (minimax_settled b false) as (v & Hv & _).
  assert (H0 := Hs v Hv).
  destruct (settled_nonterminal b false v Ht Hv) as (vs & Hvs & _ & Hmin).
  destruct (Forall2_in_left _ _ _ mv Hvs Hmv) as (y & Hy & b1 & H1 & _ & Hsy & _).
  cbn [mark_of negb] in *. rewrite Hset in H1. inversion H1; subst b1.
  rewrite (settled_fun b' true w y Hw Hsy).
  rewrite Forall_forall in Hmin. specialize (Hmin y Hy). lia.
Qed.

Lemma mark_not_other (b : board) (mv : move) (q : string) :
  In mv (getAvailableMoves b) -> (emptyCell =? q) = false ->
  (cell b (fst mv) (snd mv) =? q) = false.
Proof.
  intros Hmv Hq. apply in_available in Hmv. destruct Hmv as [_ He].
  rewrite He. exact Hq.
Qed.

(** The end of the iteration after a move of the human. *)
Lemma after_human_move (b b' : board) (mv : move) :
  in_play b playerX ->
  In mv (getAvailableMoves b) ->
  set b (fst mv) (snd mv) playerX = Some b' ->
  io_sat (good_step b) (after_move b' playerX).
Proof.
  intros [Ht [[_ Hs]|[E _]]] Hmv Hset; [|discriminate].
  destruct (terminal_false_inv b Ht) as (Ho & Hx & _).
  assert (Hs' := safe_after_human b b' mv Ht Hs Hmv Hset).
  assert (Ho' : checkWin b' playerO = false).
  { rewrite (checkWin_after_other b b' _ _ playerX playerO Hset);
      [exact Ho|apply mark_not_other; [exact Hmv|reflexivity]|reflexivity]. }
  assert (Hx' := safe_no_human_line b' true Hs' Ho').
  assert (Hlt := available_after_mark b b' mv playerX Hmv eq_refl Hset).
  unfold after_move. rewrite Hx'.
  destruct (isBoardFull b') eqn:Hf; cbn.
  - left. auto.
  - split; [|exact Hlt]. split; [apply no_win_not_full; assumption|].
    right. split; [reflexivity|]. split; [exact Hs'|].
    assert (H9 := available_le_9 b). unfold len. lia.
Qed.

(** The move of the computer and the end of its iteration. *)
Lemma after_computer_move (intn : Z -> Z) (b : board) :
  in_play b playerO ->
  exists mv b',
    findBestMove intn b = Ok (mv, []) /\
    (fst mv =? -1)%Z = false /\
    set b (fst mv) (snd mv) playerO = Some b' /\
    io_sat (good_step b) (after_move b' playerO).
Proof.
  intros [Ht [[E _]|(_ & Hs & H8)]]; [discriminate|].
  destruct (terminal_false_inv b Ht) as (Ho & Hx & Hf).
  assert (Hn : (1 <= len (getAvailableMoves b) <= 8)%Z).
  { split; [|exact H8]. assert (Hne := nonterminal_available b Ht).
    unfold len. destruct (getAvailableMoves b); [contradiction|cbn; lia]. }
  destruct (minimax_settled b true) as (v & Hv & _).
  assert (H0 := Hs v Hv).
  destruct (selected_value intn b v Hn Ht Hv)
    as (mv & b' & Hfind & Hmv & Hset & Hs').
  exists mv, b'. split; [exact Hfind|].
  split; [apply (available_row_in_range b mv Hmv)|]. split; [exact Hset|].
  assert (Hsafe : safe b' false).
  { intros w Hw. rewrite (settled_fun b' false w v Hw Hs'). exact H0. }
  assert (Hx' : checkWin b' playerX = false).
  { rewrite (checkWin_after_other b b' _ _ playerO playerX Hset);
      [exact Hx|apply mark_not_other; [exact Hmv|reflexivity]|reflexivity]. }
  assert (Hlt := available_after_mark b b' mv playerO Hmv eq_refl Hset).
  unfold after_move.
  destruct (checkWin b' playerO) eqn:Ho'; cbn.
  - right. auto.
  - destruct (isBoardFull b') eqn:Hf'; cbn.
    + left. auto.
    + split; [|exact Hlt]. split; [apply no_win_not_full; assumption|].
      left. split; [reflexivity|exact Hsafe].
Qed.

Lemma in_play_player (b : board) (player : string) :
  in_play b player -> player = playerX \/ player = playerO.
Proof. intros [_ [[E _]|[E _]]]; auto. Qed.

(** One iteration from a state of the loop. *)
Lemma turn_sat (TrimSpace : string -> string) (Atoi : string -> option Z)
    (intn : Z -> Z) (b : board) (player : string) (reads : list read) :
  in_play b player ->
  io_sat (good_step b) (turn TrimSpace Atoi intn b player reads).
Proof.
  intros Hp. unfold turn. apply io_sat_emit.
  destruct (in_play_player b player Hp) as [-> | ->]; cbn [String.eqb Ascii.eqb Bool.eqb playerX playerO].
  - apply io_sat_bind with (P := accepted TrimSpace Atoi b reads);
      [apply getPlayerMove_sat|].
    intros mv [Hmv _].
    destruct (mark_retract b mv playerX Hmv) as (b' & Hset & _).
    rewrite Hset. apply (after_human_move b b' mv Hp Hmv Hset).
  - apply io_sat_emit.
    destruct (after_computer_move intn b Hp) as (mv & b' & Hfind & Hrow & Hset & H).
    rewrite Hfind. cbn [map]. apply io_sat_emit. rewrite Hrow, Hset.
    apply io_sat_emit. exact H.
Qed.

Lemma turn_oracle_free (TrimSpace : string -> string)
    (Atoi : string -> option Z) (intn1 intn2 : Z -> Z) (b : board)
    (player : string) (reads : list read) :
  in_play b player ->
  turn TrimSpace Atoi intn1 b player reads
  = turn TrimSpace Atoi intn2 b player reads.
Proof.
  intros [_ [[-> _]|(-> & _ & H8)]]; unfold turn.
  - reflexivity.
  - rewrite (findBestMove_oracle_free intn1 intn2 b H8). reflexivity.
Qed.

(** The loop from a state of the loop, with an iteration for each empty
    cell. *)
Lemma main_loop_sat (TrimSpace : string -> string) (Atoi : string -> option Z)
    (intn : Z -> Z) (steps : nat) :
  forall b player inputs,
    (List.length (getAvailableMoves b) <= steps)%nat ->
    in_play b player ->
    io_sat (fun r => good_end (fst r) (snd r))
      (main_loop TrimSpace Atoi intn steps b player inputs).
Proof.
  induction steps as [|steps IH]; intros b player inputs Hn Hp.
  - exfalso. destruct Hp as [Ht _]. apply (nonterminal_available b Ht).
    destruct (getAvailableMoves b); [reflexivity|cbn in Hn; lia].
  - cbn [main_loop].
    apply io_sat_bind with (P := good_step b); [apply turn_sat; exact Hp|].
    intros [o fb|b' player'] Hs; unfold good_step in Hs.
    + exact Hs.
    + destruct Hs as [Hp' Hlt]. apply IH; [lia|exact Hp'].
Qed.

Lemma main_loop_oracle_free (TrimSpace : string -> string)
    (Atoi : string -> option Z) (intn1 intn2 : Z -> Z) (steps : nat) :
  forall b player inputs,
    in_play b player ->
    main_loop TrimSpace Atoi intn1 steps b player inputs
    = main_loop TrimSpace Atoi intn2 steps b player inputs.
Proof.
  induction steps as [|steps IH]; intros b player inputs Hp; [reflexivity|].
  cbn [main_loop].
  rewrite (turn_oracle_free TrimSpace Atoi intn1 intn2 b player _ Hp).
  apply io_bind_ext with (P := good_step b); [apply turn_sat; exact Hp|].
  intros [o fb|b' player'] Hs; [reflexivity|].
  destruct Hs as [Hp' _]. apply IH. exact Hp'.
Qed.

(** The first state of the loop: the empty board, the human to move. *)
Lemma in_play_start : in_play initializeBoard playerX.
Proof.
  split; [reflexivity|]. left. split; [reflexivity|].
  intros v Hv. apply (at_least_sound search_fuel 0 initializeBoard false v);
    [vm_compute; reflexivity|exact Hv].
Qed.

Lemma main_sat (TrimSpace : string -> string) (Atoi : string -> option Z)
    (intn : Z -> Z) (inputs : list (list read)) :
  io_sat (fun r => good_end (fst r) (snd r))
    (main TrimSpace Atoi intn inputs).
Proof.
  unfold main. apply io_sat_emit.
  apply io_sat_bind with (P := fun r => good_end (fst r) (snd r)).
  - apply main_loop_sat; [|exact in_play_start].
    assert (H := available_le_9 initializeBoard). unfold max_turns. exact H.
  - intros r Hr. exact Hr.
Qed.

(** X12. The human never wins: whatever the input, the text functions and
    the random source, [main] does not leave its loop by the branch that
    congratulates the human. *)
Theorem main_human_never_wins (TrimSpace : string -> string)
    (Atoi : string -> option Z) (intn : Z -> Z) (inputs : list (list read))
    (b : board) (out : list string) :
  main TrimSpace Atoi intn inputs <> Ret (HumanWins, b) out.
Proof.
  intros E. assert (H := main_sat TrimSpace Atoi intn inputs).
  rewrite E in H. cbn in H. destruct H as [[H _]|[H _]]; discriminate.
Qed.


(** X14. When [main] announces a draw the final board is full and neither
    mark has a line; when it announces the computer's win the computer has
    a line on the final board and the human has none. *)
Theorem main_final_board (TrimSpace : string -> string)
    (Atoi : string -> option Z) (intn : Z -> Z) (inputs : list (list read)) :
  match main TrimSpace Atoi intn inputs with
  | Ret (Drawn, b) _ =>
      isBoardFull b = true /\
      checkWin b playerX = false /\ checkWin b playerO = false
  | Ret (ComputerWins, b) _ =>
      checkWin b playerO = true /\ checkWin b playerX = false
  | _ => True
  end.
Proof.
  assert (H := main_sat TrimSpace Atoi intn inputs).
  destruct (main TrimSpace Atoi intn inputs) as [[o b] out| | |]; trivial.
  cbn in H. destruct o; trivial;
    destruct H as [(E & H)|(E & H)]; try discriminate; exact H.
Qed.

(** X15. The human moves first, so [findBestMove] never meets the empty
    board in [main]: the run of [main] does not depend on the random
    source. *)
Theorem main_oracle_free (TrimSpace : string -> string)
    (Atoi : string -> option Z) (intn1 intn2 : Z -> Z)
    (inputs : list (list read)) :
  main TrimSpace Atoi intn1 inputs = main TrimSpace Atoi intn2 inputs.
Proof.
  unfold main.
  rewrite (main_loop_oracle_free TrimSpace Atoi intn1 intn2 max_turns
             initializeBoard playerX inputs in_play_start).
  reflexivity.
Qed.

(** The computer's iteration on [X,_,_ / X,_,_ / _,O,_]. *)
Example turn_computer_blocks :
  turn (fun s => s) digit_atoi (fun _ => 0%Z) block_board playerO []
  = Ret (Next (Board (Row "X" " " " ") (Row "X" " " " ") (Row "O" "O" " "))
           playerX)
      (printBoard block_board
       ++ [println "Computer's turn (O)..."; println "Computer chose cell 7"])%list.
Proof. vm_compute. reflexivity. Qed.

(** ** The display *)




